(** * pyvyos: the payload builder and request executor of [pyvyos/device.py]

    A shallow embedding of [VyDevice._get_payload], [VyDevice._api_request]
    and the fourteen operation wrappers, with the Python features they rely
    on written out:

    - list objects live in a store and are referred to by address, because
      the scanning loop of [_get_payload] appends to the very list objects
      that occur inside the caller's [path];
    - a raised exception is a value of [result];
    - [requests.post] is a parameter of the executor (the environment);
    - [json.dumps] is written out for the values the builder serialises. *)

From Stdlib Require Import ZArith String Ascii PrimFloat.
From stdpp Require Import base list strings gmap pretty.

Set Warnings "-register-all".

Open Scope string_scope.
Open Scope list_scope.

(** ** Exceptions and results *)

(** The exception classes that matter to the two [except] clauses of
    [_api_request], and the ones the embedded code can raise itself. *)
Inductive exn : Type :=
  | ConnectionError (msg : string)
      (* requests.exceptions.ConnectionError or a subclass; [msg] is str(e) *)
  | JSONDecodeError (msg : string)
  | KeyError (key : string)
  | TypeError
  | OtherException (cls msg : string).
      (* any class that is neither of the two caught ones *)

Inductive result (A : Type) : Type :=
  | Ok (a : A)
  | Raise (e : exn).
Arguments Ok {A} a.
Arguments Raise {A} e.

Definition bind {A B} (r : result A) (k : A -> result B) : result B :=
  match r with
  | Ok a => k a
  | Raise e => Raise e
  end.

Notation "'let*' x ':=' r 'in' k" := (bind r (fun x => k))
  (at level 10, x name, r at level 100, k at level 200).

(** [try: body except cls: handler], with [cls] given as a test on the
    raised exception. *)
Definition try_except {A} (body : result A) (caught : exn -> bool)
    (handler : exn -> result A) : result A :=
  match body with
  | Ok a => Ok a
  | Raise e => if caught e then handler e else Raise e
  end.

Definition is_ConnectionError (e : exn) : bool :=
  match e with ConnectionError _ => true | _ => false end.

Definition is_JSONDecodeError (e : exn) : bool :=
  match e with JSONDecodeError _ => true | _ => false end.

(** ** Values handed to [json.dumps] *)

(** The builder serialises [None], strings, lists and dicts only. A dict is
    kept as an association list in insertion order, which is the order
    [json.dumps] writes it in. A character of a Rocq string stands for the
    code point of the same number. *)
Inductive value : Type :=
  | VNone
  | VStr (s : string)
  | VList (l : list value)
  | VDict (kvs : list (string * value)).

Module Json.

Definition dquote : ascii := "034"%char.

Definition hex_digit (n : N) : ascii :=
  match String.get (N.to_nat n) "0123456789abcdef" with
  | Some c => c
  | None => "0"%char
  end.

(** One character under [ensure_ascii=True]: the quote, the backslash and
    everything outside [' '..'~'] are escaped. *)
Definition escape_char (c : ascii) : string :=
  let n := N_of_ascii c in
  if (n =? 34)%N then String "\" (String dquote EmptyString)
  else if (n =? 92)%N then "\\"
  else if (n =? 8)%N then "\b"
  else if (n =? 12)%N then "\f"
  else if (n =? 10)%N then "\n"
  else if (n =? 13)%N then "\r"
  else if (n =? 9)%N then "\t"
  else if ((32 <=? n) && (n <=? 126))%N then String c EmptyString
  else "\u00" +:+ String (hex_digit (n / 16)) (String (hex_digit (n mod 16)) EmptyString).

Fixpoint escape (s : string) : string :=
  match s with
  | EmptyString => EmptyString
  | String c s' => escape_char c +:+ escape s'
  end.

Definition encode_basestring_ascii (s : string) : string :=
  String dquote (escape s +:+ String dquote EmptyString).

(** [sep.join(parts)] *)
Fixpoint join (sep : string) (parts : list string) : string :=
  match parts with
  | [] => ""
  | [p] => p
  | p :: rest => p +:+ sep +:+ join sep rest
  end.

(** [json.dumps(v)] with the default separators [", "] and [": "]. *)
Fixpoint dumps (v : value) : string :=
  match v with
  | VNone => "null"
  | VStr s => encode_basestring_ascii s
  | VList l => "[" +:+ join ", " (map dumps l) +:+ "]"
  | VDict kvs =>
      "{" +:+ join ", "
               (map (fun kv => encode_basestring_ascii (fst kv) +:+ ": " +:+ dumps (snd kv)) kvs)
          +:+ "}"
  end.

(** JSON text is written below with ['] where the text has the double
    quote. *)
Fixpoint text (s : string) : string :=
  match s with
  | EmptyString => EmptyString
  | String c s' => String (if Ascii.eqb c "'" then dquote else c) (text s')
  end.

End Json.

(** ** The store of list objects *)

Abbreviation loc := nat (only parsing).

(** Every list the builder can reach through [path] holds plain segments. *)
Abbreviation heap := (list (list string)) (only parsing).

Definition deref (h : heap) (l : loc) : list string := default [] (h !! l).

(** [l.append(s)] *)
Definition list_append (h : heap) (l : loc) (s : string) : heap :=
  alter (fun xs => xs ++ [s]) l h.

(** [[]]: a new list object, at an address not in use. *)
Definition new_list (h : heap) : loc * heap := (length h, h ++ [[]]).

(** ** Path input *)

(** An element of the outer sequence: a plain segment, or a list object
    ([isinstance(p, list)]). *)
Inductive item : Type :=
  | Seg (s : string)
  | Nested (l : loc).

(** [path]: [None], or the outer list. *)
Definition path_input := option (list item).

Definition item_value (h : heap) (p : item) : value :=
  match p with
  | Seg s => VStr s
  | Nested l => VList (map VStr (deref h l))
  end.

Definition path_value (h : heap) (path : path_input) : value :=
  match path with
  | None => VNone
  | Some items => VList (map (item_value h) items)
  end.

(** ** The device *)

Record VyDevice : Type := {
  hostname : string;
  apikey : string;
  protocol : string;
  port : Z;
  verify : bool;
  timeout : Z
}.

(** [VyDevice(hostname, apikey)] with the defaults of [__init__]. *)
Definition VyDevice_init (hostname apikey : string) : VyDevice :=
  {| hostname := hostname; apikey := apikey; protocol := "https";
     port := 443; verify := true; timeout := 10 |}.

Definition _get_url (self : VyDevice) (command : string) : string :=
  protocol self +:+ "://" +:+ hostname self +:+ ":" +:+ pretty (port self) +:+ "/" +:+ command.

(** ** The payload builder *)

(** [{'op': op, 'path': <list object>}] as the loop of the general branch
    builds it. *)
Record command : Type := { cmd_op : string; cmd_path : loc }.

Definition command_value (h : heap) (c : command) : value :=
  VDict [("op", VStr (cmd_op c)); ("path", VList (map VStr (deref h (cmd_path c))))].

(** The local [data]: a dict in the first two branches, a list of commands
    in the general one. *)
Inductive local_data : Type :=
  | DataDict (kvs : list (string * value))
  | DataList (cmds : list command).

Definition data_value (h : heap) (d : local_data) : value :=
  match d with
  | DataDict kvs => VDict kvs
  | DataList cmds => VList (map (command_value h) cmds)
  end.

(** [d[k] = v] on a dict. *)
Fixpoint dict_set (k : string) (v : value) (kvs : list (string * value))
    : list (string * value) :=
  match kvs with
  | [] => [(k, v)]
  | (k', v') :: rest =>
      if String.eqb k' k then (k, v) :: rest else (k', v') :: dict_set k v rest
  end.

(** [data[k] = v]: a list refuses a string index. *)
Definition data_setitem (d : local_data) (k : string) (v : string) : result local_data :=
  match d with
  | DataDict kvs => Ok (DataDict (dict_set k (VStr v) kvs))
  | DataList _ => Raise TypeError
  end.

(** [if x is not None: data[k] = x] *)
Definition data_set_opt (d : local_data) (k : string) (x : option string)
    : result local_data :=
  match x with
  | Some v => data_setitem d k v
  | None => Ok d
  end.

(** [if x is not None: d[k] = x] on a dict that cannot refuse. *)
Definition dict_set_opt (k : string) (x : option string)
    (kvs : list (string * value)) : list (string * value) :=
  match x with
  | Some v => dict_set k (VStr v) kvs
  | None => kvs
  end.

(** The state of the scanning loop: the store, [data], [current_command]. *)
Record scan_state : Type := {
  st_heap : heap;
  st_data : list command;
  st_current : command
}.

(** One iteration of [for p in path]. *)
Definition scan_step (op : string) (st : scan_state) (p : item) : scan_state :=
  match p with
  | Nested l =>
      let data :=
        match deref (st_heap st) (cmd_path (st_current st)) with
        | [] => st_data st
        | _ :: _ => st_data st ++ [st_current st]
        end in
      {| st_heap := st_heap st; st_data := data;
         st_current := {| cmd_op := op; cmd_path := l |} |}
  | Seg s =>
      {| st_heap := list_append (st_heap st) (cmd_path (st_current st)) s;
         st_data := st_data st;
         st_current := st_current st |}
  end.

(** The general branch up to [json.dumps]: the batch and the store the scan
    leaves behind. *)
Definition scan (op : string) (items : list item) (h : heap) : list command * heap :=
  let '(l0, h0) := new_list h in
  let st := fold_left (scan_step op) items
              {| st_heap := h0; st_data := [];
                 st_current := {| cmd_op := op; cmd_path := l0 |} |} in
  let data :=
    match deref (st_heap st) (cmd_path (st_current st)) with
    | [] => st_data st
    | _ :: _ => st_data st ++ [st_current st]
    end in
  (data, st_heap st).

(** Lines 151-165, shared by the one-element and the general branch: the
    payload is built from [data] as it is at that point, and the later
    stores into [data] are made on the local object only. *)
Definition wrap_payload (self : VyDevice) (h : heap) (data : local_data)
    (file url name : option string) : result (gmap string string) :=
  let payload : gmap string string :=
    <["key" := apikey self]> {["data" := Json.dumps (data_value h data)]} in
  let* data := data_set_opt data "file" file in
  let payload := match url with
                 | Some u => <["url" := u]> payload
                 | None => payload
                 end in
  let* data := data_set_opt data "name" name in
  Ok payload.

Definition _get_payload (self : VyDevice) (op : string) (path : path_input)
    (file url name : option string) (h : heap)
    : result (gmap string string) * heap :=
  match path with
  | None | Some [] =>
      let data := [("op", VStr op); ("path", path_value h path)] in
      let data := dict_set_opt "file" file data in
      let data := dict_set_opt "url" url data in
      let data := dict_set_opt "name" name data in
      (Ok (<["key" := apikey self]> {["data" := Json.dumps (VDict data)]}), h)
  | Some [p] =>
      let data := DataDict [("op", VStr op); ("path", item_value h p)] in
      (wrap_payload self h data file url name, h)
  | Some items =>
      let '(cmds, h') := scan op items h in
      (wrap_payload self h' (DataList cmds) file url name, h')
  end.

(** ** What [resp.json()] returns *)

(** A decoded body: numbers are Python ints or floats, an object is a dict
    (one entry per key). *)
Inductive jval : Type :=
  | JNull
  | JBool (b : bool)
  | JInt (n : Z)
  | JFloat (f : float)
  | JStr (s : string)
  | JArr (l : list jval)
  | JObj (kvs : list (string * jval)).

Fixpoint dict_get (k : string) (kvs : list (string * jval)) : option jval :=
  match kvs with
  | [] => None
  | (k', v) :: rest => if String.eqb k' k then Some v else dict_get k rest
  end.

(** [v[k]] for a string [k]: only a dict can answer, and it raises
    [KeyError] for a key it does not have. *)
Definition getitem (v : jval) (k : string) : result jval :=
  match v with
  | JObj kvs =>
      match dict_get k kvs with
      | Some x => Ok x
      | None => Raise (KeyError k)
      end
  | _ => Raise TypeError
  end.

(** [v == True]: [True] equals itself and the numbers [1] and [1.0]. *)
Definition eq_True (v : jval) : bool :=
  match v with
  | JBool b => b
  | JInt n => (n =? 1)%Z
  | JFloat f => PrimFloat.eqb f 1%float
  | _ => false
  end.

(** ** The transport *)

(** The response object as far as the executor reads it: [status_code] and
    the outcome of [json()]. *)
Record Response : Type := {
  status_code : Z;
  json : result jval
}.

(** [requests.post(url, verify=, data=, timeout=, headers={})]: answers or
    raises. *)
Definition transport : Type :=
  string -> bool -> gmap string string -> Z -> result Response.

(** ** The request executor *)

Record ApiResponse : Type := {
  status : Z;
  request : gmap string string;
  result_ : jval;
  error : jval
}.

(** The inner [try] (lines 194-204) as a function from the locals
    [(result, error)] before it to the locals after it. [result] is assigned
    by the last statement that can raise, so the handler finds it
    unchanged. *)
Definition decode_body (resp : Response) (locals : jval * jval) : result (jval * jval) :=
  try_except
    (let* resp_decoded := json resp in
     let* success := getitem resp_decoded "success" in
     if eq_True success then
       let* data := getitem resp_decoded "data" in
       Ok (data, JBool false)
     else
       let* err := getitem resp_decoded "error" in
       Ok (locals.1, err))
    is_JSONDecodeError
    (fun _ => Ok (locals.1, JStr "json decode error")).

(** The outer [try] (lines 190-212): the locals [(status, result, error)]
    it leaves. *)
Definition post_and_classify (post : transport) (self : VyDevice) (url : string)
    (payload : gmap string string) (locals : jval * jval) : result (Z * jval * jval) :=
  try_except
    (let* resp := post url (verify self) payload (timeout self) in
     let* locals :=
       if (status_code resp =? 200)%Z then decode_body resp locals
       else Ok (locals.1, JStr "http error") in
     Ok (status_code resp, locals.1, locals.2))
    is_ConnectionError
    (fun e =>
       match e with
       | ConnectionError msg => Ok (0%Z, locals.1, JStr ("connection error: " +:+ msg))
       | _ => Raise e
       end).

(** [del(d[k])] *)
Definition delitem (d : gmap string string) (k : string) : result (gmap string string) :=
  match d !! k with
  | Some _ => Ok (delete k d)
  | None => Raise (KeyError k)
  end.

(** The parameter [url] is rebound by the first statement, so the builder
    and the transport both get the endpoint address. *)
Definition _api_request (post : transport) (self : VyDevice) (command op : string)
    (path : path_input) (file url name : option string) (h : heap)
    : result ApiResponse * heap :=
  let url := _get_url self command in
  match _get_payload self op path file (Some url) name h with
  | (Raise e, h') => (Raise e, h')
  | (Ok payload, h') =>
      let error := JBool false in
      let result := JObj [] in
      (let* locals := post_and_classify post self url payload (result, error) in
       let '(status, result, error) := locals in
       let* payload := delitem payload "key" in
       Ok {| status := status; request := payload; result_ := result; error := error |},
       h')
  end.

(** ** The operation wrappers *)

Section Wrappers.

Variable post : transport.
Variable self : VyDevice.

Definition retrieve_show_config (path : path_input) :=
  _api_request post self "retrieve" "showConfig" path None None None.

Definition retrieve_return_values (path : path_input) :=
  _api_request post self "retrieve" "returnValues" path None None None.

Definition retrieve_exists (path : path_input) :=
  _api_request post self "retrieve" "exists" path None None None.

Definition reset (path : path_input) :=
  _api_request post self "reset" "reset" path None None None.

Definition image_add (url : option string) :=
  _api_request post self "image" "add" (Some []) None url None.

Definition image_delete (name : option string) :=
  _api_request post self "image" "delete" (Some []) None None name.

Definition show (path : path_input) :=
  _api_request post self "show" "show" path None None None.

Definition generate (path : path_input) :=
  _api_request post self "generate" "generate" path None None None.

Definition configure_set (path : path_input) :=
  _api_request post self "configure" "set" path None None None.

Definition configure_delete (path : path_input) :=
  _api_request post self "configure" "delete" path None None None.

Definition config_file_save (file : option string) :=
  _api_request post self "config-file" "save" (Some []) file None None.

Definition config_file_load (file : option string) :=
  _api_request post self "config-file" "load" (Some []) file None None.

Definition reboot (path : path_input) :=
  _api_request post self "reboot" "reboot" path None None None.

Definition poweroff (path : path_input) :=
  _api_request post self "poweroff" "poweroff" path None None None.

(** The default of [reboot] and [poweroff]. *)
Definition path_now : path_input := Some [Seg "now"].

(** A call of one of the fourteen methods, with its arguments. *)
Inductive call : Type :=
  | RetrieveShowConfig (path : path_input)
  | RetrieveReturnValues (path : path_input)
  | RetrieveExists (path : path_input)
  | Reset (path : path_input)
  | ImageAdd (url : option string)
  | ImageDelete (name : option string)
  | Show (path : path_input)
  | Generate (path : path_input)
  | ConfigureSet (path : path_input)
  | ConfigureDelete (path : path_input)
  | ConfigFileSave (file : option string)
  | ConfigFileLoad (file : option string)
  | Reboot (path : path_input)
  | Poweroff (path : path_input).

Definition run (c : call) : heap -> result ApiResponse * heap :=
  match c with
  | RetrieveShowConfig path => retrieve_show_config path
  | RetrieveReturnValues path => retrieve_return_values path
  | RetrieveExists path => retrieve_exists path
  | Reset path => reset path
  | ImageAdd url => image_add url
  | ImageDelete name => image_delete name
  | Show path => show path
  | Generate path => generate path
  | ConfigureSet path => configure_set path
  | ConfigureDelete path => configure_delete path
  | ConfigFileSave file => config_file_save file
  | ConfigFileLoad file => config_file_load file
  | Reboot path => reboot path
  | Poweroff path => poweroff path
  end.

End Wrappers.

(** * Properties *)

(** ** The wrapper around the serialised data *)

(** [{'data': d, 'key': apikey}] *)
Definition base_payload (self : VyDevice) (d : string) : gmap string string :=
  <["key" := apikey self]> {["data" := d]}.

(** [{'data': d, 'key': apikey}], with [url] on top when there is one. *)
Definition outer_payload (self : VyDevice) (d : string) (url : option string)
    : gmap string string :=
  match url with
  | Some u => <["url" := u]> (base_payload self d)
  | None => base_payload self d
  end.

(** [{'op': op, 'path': path}] for a path of plain segments. *)
Definition request_value (op : string) (path : list string) : value :=
  VDict [("op", VStr op); ("path", VList (VStr <$> path))].

(** What [data] holds when it is serialised: one operation object, which
    starts with [op] and [path], or a batch of operation objects. *)
Inductive operation_data (op : string) : value -> Prop :=
  | single_request pv extras :
      operation_data op (VDict (("op", VStr op) :: ("path", pv) :: extras))
  | batch paths :
      operation_data op (VList (request_value op <$> paths)).

(** The invariant of the loop: every command already in the batch carries
    the verb of the call and a non-empty path. *)
Definition batch_ok (op : string) (h : heap) (data : list command) : Prop :=
  Forall (fun c => cmd_op c = op ∧ deref h (cmd_path c) ≠ []) data.

(** The transport gives the same outcome whatever it is sent. *)
(** The paths of the batch, read in the store the scan leaves behind. *)
Definition scan_paths (op : string) (items : list item) (h : heap) : list (list string) :=
  (fun c => deref (scan op items h).2 (cmd_path c)) <$> (scan op items h).1.

(** One store extends another: every list object is still there and has
    only gained segments at its end. *)
Definition store_grows (h h' : heap) : Prop :=
  forall l xs, h !! l = Some xs -> ∃ ys, h' !! l = Some (xs ++ ys).

(** The list objects a path refers to. *)
Definition nested_locs (items : list item) : list loc :=
  omap (fun p => match p with Nested l => Some l | Seg _ => None end) items.

(** The path read by value: a plain segment, or the contents a nested
    sequence has when the call is made. *)
Inductive vitem : Type :=
  | VSeg (s : string)
  | VNested (xs : list string).

Definition item_view (h : heap) (p : item) : vitem :=
  match p with
  | Seg s => VSeg s
  | Nested l => VNested (deref h l)
  end.

(** A buffer becomes a request only if it is not empty. *)
Definition flush (cur : list string) : list (list string) :=
  match cur with
  | [] => []
  | _ :: _ => [cur]
  end.

(** The batch as a function of the values: a nested sequence closes the
    buffer and seeds the next one, a plain segment extends the buffer. *)
Fixpoint chunks (cur : list string) (items : list vitem) : list (list string) :=
  match items with
  | [] => flush cur
  | VSeg s :: rest => chunks (cur ++ [s]) rest
  | VNested xs :: rest => flush cur ++ chunks xs rest
  end.

(** The command endpoint each method posts to. *)
Definition endpoint (c : call) : string :=
  match c with
  | RetrieveShowConfig _ | RetrieveReturnValues _ | RetrieveExists _ => "retrieve"
  | Reset _ => "reset"
  | ImageAdd _ | ImageDelete _ => "image"
  | Show _ => "show"
  | Generate _ => "generate"
  | ConfigureSet _ | ConfigureDelete _ => "configure"
  | ConfigFileSave _ | ConfigFileLoad _ => "config-file"
  | Reboot _ => "reboot"
  | Poweroff _ => "poweroff"
  end.

(** The responses a call can return, by the outcome [o] of the transport:
    status, result and error of each kind. *)
Inductive returned_kind (o : result Response) : Z -> jval -> jval -> Prop :=
  | kind_connection_error msg :
      o = Raise (ConnectionError msg) ->
      returned_kind o 0 (JObj []) (JStr ("connection error: " +:+ msg))
  | kind_http_error resp :
      o = Ok resp -> status_code resp ≠ 200%Z ->
      returned_kind o (status_code resp) (JObj []) (JStr "http error")
  | kind_decode_error resp msg :
      o = Ok resp -> status_code resp = 200%Z ->
      json resp = Raise (JSONDecodeError msg) ->
      returned_kind o 200 (JObj []) (JStr "json decode error")
  | kind_decode_connection_error resp msg :
      o = Ok resp -> status_code resp = 200%Z ->
      json resp = Raise (ConnectionError msg) ->
      returned_kind o 0 (JObj []) (JStr ("connection error: " +:+ msg))
  | kind_success resp kvs s d :
      o = Ok resp -> status_code resp = 200%Z ->
      json resp = Ok (JObj kvs) ->
      dict_get "success" kvs = Some s -> eq_True s = true ->
      dict_get "data" kvs = Some d ->
      returned_kind o 200 d (JBool false)
  | kind_failure resp kvs s e :
      o = Ok resp -> status_code resp = 200%Z ->
      json resp = Ok (JObj kvs) ->
      dict_get "success" kvs = Some s -> eq_True s = false ->
      dict_get "error" kvs = Some e ->
      returned_kind o 200 (JObj []) e.

(** The path each method hands to the executor. *)
Definition call_path (c : call) : path_input :=
  match c with
  | RetrieveShowConfig path | RetrieveReturnValues path | RetrieveExists path
  | Reset path | Show path | Generate path | ConfigureSet path | ConfigureDelete path
  | Reboot path | Poweroff path => path
  | ImageAdd _ | ImageDelete _ | ConfigFileSave _ | ConfigFileLoad _ => Some []
  end.

Definition answers (post : transport) (o : result Response) : Prop :=
  forall url verify data timeout, post url verify data timeout = o.

(** What a call returns once the locals of the outer [try] are known. *)
Definition response_of (p : gmap string string) (locals : Z * jval * jval) : ApiResponse :=
  {| status := locals.1.1; request := delete "key" p;
     result_ := locals.1.2; error := locals.2 |}.

Lemma outer_payload_lookup_key self d url :
  outer_payload self d url !! "key" = Some (apikey self).
Proof. destruct url; reflexivity. Qed.

Lemma outer_payload_lookup_data self d url :
  outer_payload self d url !! "data" = Some d.
Proof. destruct url; reflexivity. Qed.

Lemma outer_payload_lookup_url self d url :
  outer_payload self d url !! "url" = url.
Proof. destruct url; reflexivity. Qed.

Lemma outer_payload_lookup_file self d url :
  outer_payload self d url !! "file" = None.
Proof. destruct url; reflexivity. Qed.

Lemma outer_payload_lookup_name self d url :
  outer_payload self d url !! "name" = None.
Proof. destruct url; reflexivity. Qed.

Lemma outer_payload_dom self d url :
  dom (outer_payload self d url) ⊆ ({["data"; "key"; "url"]} : gset string).
Proof.
  intros k Hk. apply elem_of_dom in Hk as [v Hk].
  rewrite !elem_of_union, !elem_of_singleton.
  destruct (decide (k = "data")) as [|Hd]; [tauto|].
  destruct (decide (k = "key")) as [|Hkey]; [tauto|].
  destruct (decide (k = "url")) as [|Hu]; [tauto|].
  exfalso. destruct url; unfold outer_payload, base_payload in Hk;
    rewrite ?lookup_insert_ne, lookup_singleton_ne in Hk by done; done.
Qed.

(** A payload leaves [wrap_payload] only in the shape of [outer_payload]. *)
Lemma wrap_payload_Ok self h data file url name p :
  wrap_payload self h data file url name = Ok p ->
  p = outer_payload self (Json.dumps (data_value h data)) url.
Proof.
  unfold wrap_payload, outer_payload, base_payload.
  destruct (data_set_opt data "file" file) as [d1|]; simpl; [|discriminate].
  destruct (data_set_opt d1 "name" name); simpl; [|discriminate].
  destruct url; congruence.
Qed.

(** On a dict the two late stores cannot fail. *)
Lemma wrap_payload_dict self h kvs file url name :
  wrap_payload self h (DataDict kvs) file url name
  = Ok (outer_payload self (Json.dumps (VDict kvs)) url).
Proof. destruct file, url, name; reflexivity. Qed.

(** On a batch they do, unless both [file] and [name] are [None]. *)
Lemma wrap_payload_list self h cmds url :
  wrap_payload self h (DataList cmds) None url None
  = Ok (outer_payload self (Json.dumps (VList (command_value h <$> cmds))) url).
Proof. destruct url; reflexivity. Qed.

Lemma wrap_payload_list_file self h cmds f url name :
  wrap_payload self h (DataList cmds) (Some f) url name = Raise TypeError.
Proof. reflexivity. Qed.

Lemma wrap_payload_list_name self h cmds file url n :
  wrap_payload self h (DataList cmds) file url (Some n) = Raise TypeError.
Proof. destruct file, url; reflexivity. Qed.

(** ** The store under [append] *)

Lemma deref_list_append_eq h l s :
  l < length h -> deref (list_append h l s) l = deref h l ++ [s].
Proof.
  intros Hl. unfold deref, list_append. rewrite list_lookup_alter_eq.
  destruct (lookup_lt_is_Some_2 h l Hl) as [xs ->]. reflexivity.
Qed.

Lemma deref_list_append_ne h l l' s :
  l ≠ l' -> deref (list_append h l s) l' = deref h l'.
Proof.
  intros Hne. unfold deref, list_append. by rewrite list_lookup_alter_ne.
Qed.

(** Lists only grow: what was non-empty stays so. *)
Lemma deref_list_append_nonempty h l l' s :
  deref h l' ≠ [] -> deref (list_append h l s) l' ≠ [].
Proof.
  intros Hne. destruct (decide (l = l')) as [->|Hll].
  - unfold deref, list_append in *. rewrite list_lookup_alter_eq.
    destruct (h !! l') as [xs|]; simpl in *; [|done].
    by destruct xs.
  - by rewrite deref_list_append_ne.
Qed.

Lemma list_append_fresh h acc s :
  list_append (h ++ [acc]) (length h) s = h ++ [acc ++ [s]].
Proof.
  unfold list_append.
  rewrite <- (Nat.add_0_r (length h)) at 1.
  by rewrite alter_app_r.
Qed.

Lemma deref_fresh h acc : deref (h ++ [acc]) (length h) = acc.
Proof. unfold deref. by rewrite list_lookup_middle. Qed.

(** ** The scanning loop *)

(** Plain segments alone all go into the list the scan created, and the
    batch stays empty until the end of the loop. *)
Lemma scan_loop_flat op segs : forall h acc cur_op,
  fold_left (scan_step op) (Seg <$> segs)
    {| st_heap := h ++ [acc]; st_data := [];
       st_current := {| cmd_op := cur_op; cmd_path := length h |} |}
  = {| st_heap := h ++ [acc ++ segs]; st_data := [];
       st_current := {| cmd_op := cur_op; cmd_path := length h |} |}.
Proof.
  induction segs as [|s segs IH]; intros h acc cur_op; simpl.
  - by rewrite app_nil_r.
  - rewrite list_append_fresh, IH. by rewrite <- app_assoc.
Qed.

Lemma scan_flat op segs h :
  segs ≠ [] ->
  scan op (Seg <$> segs) h
  = ([{| cmd_op := op; cmd_path := length h |}], h ++ [segs]).
Proof.
  intros Hne. unfold scan, new_list. rewrite scan_loop_flat. simpl.
  rewrite deref_fresh. by destruct segs.
Qed.

Lemma scan_step_batch_ok op st p :
  batch_ok op (st_heap st) (st_data st) ->
  cmd_op (st_current st) = op ->
  batch_ok op (st_heap (scan_step op st p)) (st_data (scan_step op st p))
  ∧ cmd_op (st_current (scan_step op st p)) = op.
Proof.
  intros Hdata Hcur. destruct p as [s|l]; simpl.
  - split; [|done].
    eapply Forall_impl; [exact Hdata|].
    intros c [Hop Hne]. split; [done|]. by apply deref_list_append_nonempty.
  - split; [|done].
    destruct (deref (st_heap st) (cmd_path (st_current st))) eqn:Hd; [done|].
    apply Forall_app. split; [done|].
    apply Forall_singleton. split; [done|]. by rewrite Hd.
Qed.

Lemma scan_loop_batch_ok op items : forall st,
  batch_ok op (st_heap st) (st_data st) ->
  cmd_op (st_current st) = op ->
  batch_ok op (st_heap (fold_left (scan_step op) items st))
              (st_data (fold_left (scan_step op) items st))
  ∧ cmd_op (st_current (fold_left (scan_step op) items st)) = op.
Proof.
  induction items as [|p items IH]; intros st Hdata Hcur; simpl; [done|].
  destruct (scan_step_batch_ok op st p Hdata Hcur) as [Hdata' Hcur'].
  by apply IH.
Qed.

Lemma scan_batch_ok op items h :
  batch_ok op (scan op items h).2 (scan op items h).1.
Proof.
  unfold scan, new_list.
  set (st0 := {| st_heap := h ++ [[]]; st_data := [];
                 st_current := {| cmd_op := op; cmd_path := length h |} |}).
  destruct (scan_loop_batch_ok op items st0) as [Hdata Hcur];
    [by apply Forall_nil| done |].
  simpl.
  destruct (deref _ _) eqn:Hd; [done|].
  apply Forall_app. split; [done|].
  apply Forall_singleton. split; [done|]. by rewrite Hd.
Qed.

(** The batch as [json.dumps] sees it: one operation object per command,
    each with the verb of the call. *)
Lemma batch_ok_values op h cmds :
  batch_ok op h cmds ->
  command_value h <$> cmds = request_value op <$> ((fun c => deref h (cmd_path c)) <$> cmds).
Proof.
  induction 1 as [|c cmds [Hop _] _ IH]; [done|].
  rewrite !fmap_cons, IH. unfold command_value, request_value. by rewrite Hop.
Qed.

Lemma data_value_scan op items h :
  data_value (scan op items h).2 (DataList (scan op items h).1)
  = VList (request_value op <$> scan_paths op items h).
Proof.
  unfold data_value, scan_paths.
  change (map (command_value ?h') ?l) with (command_value h' <$> l).
  by rewrite (batch_ok_values op) by apply scan_batch_ok.
Qed.

(** ** The builder, branch by branch *)

(** Empty path or [None]: [file], [url] and [name] all go inside the
    serialised object, in this order, and the wrapper has [data] and [key]
    only. *)
Lemma get_payload_empty self op path file url name h :
  path = None ∨ path = Some [] ->
  _get_payload self op path file url name h
  = (Ok (base_payload self
           (Json.dumps (VDict (dict_set_opt "name" name
                                (dict_set_opt "url" url
                                  (dict_set_opt "file" file
                                    [("op", VStr op); ("path", path_value h path)])))))),
     h).
Proof. by intros [-> | ->]. Qed.

Lemma get_payload_single self op x file url name h :
  _get_payload self op (Some [x]) file url name h
  = (Ok (outer_payload self
           (Json.dumps (VDict [("op", VStr op); ("path", item_value h x)])) url),
     h).
Proof. unfold _get_payload. by rewrite wrap_payload_dict. Qed.

Lemma get_payload_general self op x y items file url name h :
  _get_payload self op (Some (x :: y :: items)) file url name h
  = (wrap_payload self (scan op (x :: y :: items) h).2
       (DataList (scan op (x :: y :: items) h).1) file url name,
     (scan op (x :: y :: items) h).2).
Proof. unfold _get_payload. by destruct (scan op (x :: y :: items) h). Qed.

(** The optional fields of the first branch come after [op] and [path]. *)
Lemma dict_set_opt_extras op pv file url name :
  ∃ extras,
    dict_set_opt "name" name
      (dict_set_opt "url" url
        (dict_set_opt "file" file [("op", VStr op); ("path", pv)]))
    = ("op", VStr op) :: ("path", pv) :: extras.
Proof. destruct file, url, name; simpl; eauto. Qed.

(** A returned payload is the wrapper around one serialisation of the
    operation object or of the batch. *)
Lemma get_payload_shape self op path file url name h p h' :
  _get_payload self op path file url name h = (Ok p, h') ->
  ∃ v url', operation_data op v ∧ p = outer_payload self (Json.dumps v) url'.
Proof.
  intros Hp. destruct path as [[|x [|y items]]|].
  - rewrite get_payload_empty in Hp by auto.
    destruct (dict_set_opt_extras op (path_value h (Some [])) file url name) as [ex Hex].
    rewrite Hex in Hp. injection Hp as <- _.
    exists (VDict (("op", VStr op) :: ("path", path_value h (Some [])) :: ex)), None.
    split; [constructor | done].
  - rewrite get_payload_single in Hp. injection Hp as <- _.
    exists (VDict [("op", VStr op); ("path", item_value h x)]), url.
    split; [apply single_request | reflexivity].
  - rewrite get_payload_general in Hp.
    apply (f_equal fst) in Hp. cbn [fst] in Hp. rename Hp into Hw.
    apply wrap_payload_Ok in Hw. subst p.
    exists (VList (request_value op <$> scan_paths op (x :: y :: items) h)), url.
    split; [apply batch | by rewrite data_value_scan].
  - rewrite get_payload_empty in Hp by auto.
    destruct (dict_set_opt_extras op (path_value h None) file url name) as [ex Hex].
    rewrite Hex in Hp. injection Hp as <- _.
    exists (VDict (("op", VStr op) :: ("path", path_value h None) :: ex)), None.
    split; [constructor | done].
Qed.

(** The builder answers whenever [file] and [name] are both [None], and
    whenever the path is empty. *)
Lemma get_payload_returns self op path file url name h :
  (file = None ∧ name = None) ∨ path = Some [] ->
  ∃ p h', _get_payload self op path file url name h = (Ok p, h').
Proof.
  intros [[-> ->] | ->].
  - destruct path as [[|x [|y items]]|].
    + rewrite get_payload_empty by auto. eauto.
    + rewrite get_payload_single. eauto.
    + rewrite get_payload_general, wrap_payload_list. eauto.
    + rewrite get_payload_empty by auto. eauto.
  - rewrite get_payload_empty by auto. eauto.
Qed.

(** C10. Whatever the input, a payload the builder returns has its keys among
    data, key and url; file and name are never top-level keys; and data is
    present, holding the one serialisation of the operation object or of the
    batch. *)
Theorem get_payload_keys self op path file url name h p h' :
  _get_payload self op path file url name h = (Ok p, h') ->
  dom p ⊆ ({["data"; "key"; "url"]} : gset string)
  ∧ p !! "file" = None ∧ p !! "name" = None
  ∧ ∃ v, operation_data op v ∧ p !! "data" = Some (Json.dumps v).
Proof.
  intros Hp. apply get_payload_shape in Hp as (v & url' & Hv & ->).
  split; [apply outer_payload_dom|].
  split; [apply outer_payload_lookup_file|].
  split; [apply outer_payload_lookup_name|].
  exists v. split; [done | apply outer_payload_lookup_data].
Qed.

Lemma get_payload_keys_witness :
  let self := VyDevice_init "vyos.example" "secret" in
  let p := outer_payload self
             (Json.text "[{'op': 'set', 'path': ['interfaces', 'dummy']}]")
             (Some "https://vyos.example:443/configure") in
  dom p ⊆ ({["data"; "key"; "url"]} : gset string)
  ∧ p !! "file" = None ∧ p !! "name" = None
  ∧ ∃ v, operation_data "set" v ∧ p !! "data" = Some (Json.dumps v).
Proof.
  apply (get_payload_keys (VyDevice_init "vyos.example" "secret") "set"
           (Some [Seg "interfaces"; Seg "dummy"]) None
           (Some "https://vyos.example:443/configure") None [] _
           [["interfaces"; "dummy"]]).
  vm_compute. reflexivity.
Defined.

(** C9. A one-element path puts that element itself into the path field,
    whether it is a plain segment or a list: the default path of reboot and
    poweroff is serialised as the bare string, not as a one-element list. *)
Theorem get_payload_single_element self op x file url name h :
  (∃ p, _get_payload self op (Some [x]) file url name h = (Ok p, h)
        ∧ p !! "data"
          = Some (Json.dumps (VDict [("op", VStr op); ("path", item_value h x)])))
  ∧ (x = Seg "now" -> op = "reboot" ->
     ∃ p, _get_payload self op (Some [x]) file url name h = (Ok p, h)
          ∧ p !! "data" = Some (Json.text "{'op': 'reboot', 'path': 'now'}")).
Proof.
  split; [|intros -> ->]; eexists; (split; [apply get_payload_single|]);
    by rewrite outer_payload_lookup_data.
Qed.

Lemma get_payload_single_element_witness :
  ∃ p, _get_payload (VyDevice_init "h" "k") "reboot" path_now None None None []
       = (Ok p, [])
       ∧ p !! "data" = Some (Json.text "{'op': 'reboot', 'path': 'now'}").
Proof.
  apply (proj2 (get_payload_single_element (VyDevice_init "h" "k") "reboot" (Seg "now")
                  None None None [])); reflexivity.
Defined.

(** C2, as the code has it. A flat path of more than one segment goes
    through the general branch: with neither file nor name, the serialised
    data is a batch of exactly one operation object, whose path is the input
    sequence unchanged. *)
Theorem get_payload_flat self op segs url h :
  1 < length segs ->
  _get_payload self op (Some (Seg <$> segs)) None url None h
  = (Ok (outer_payload self (Json.dumps (VList [request_value op segs])) url),
     h ++ [segs]).
Proof.
  intros Hlen.
  destruct segs as [|a [|b segs]]; simpl in Hlen; [lia | lia |].
  change (Seg <$> a :: b :: segs) with (Seg a :: Seg b :: (Seg <$> segs)).
  rewrite get_payload_general.
  change (Seg a :: Seg b :: (Seg <$> segs)) with (Seg <$> a :: b :: segs).
  rewrite scan_flat by done. simpl.
  rewrite wrap_payload_list. simpl.
  unfold command_value. simpl. by rewrite deref_fresh.
Qed.

Lemma get_payload_flat_witness :
  _get_payload (VyDevice_init "h" "k") "set" (Some [Seg "a"; Seg "b"]) None None None []
  = (Ok (outer_payload (VyDevice_init "h" "k")
           (Json.dumps (VList [request_value "set" ["a"; "b"]])) None),
     [["a"; "b"]]).
Proof.
  apply (get_payload_flat (VyDevice_init "h" "k") "set" ["a"; "b"] None []).
  simpl. lia.
Defined.

(** The flat path [a, b]: the data is an array holding one object, not the
    object itself. *)
Lemma get_payload_flat_is_batch :
  ∃ p h',
    _get_payload (VyDevice_init "h" "k") "set" (Some [Seg "a"; Seg "b"]) None None None []
    = (Ok p, h')
    ∧ p !! "data" = Some (Json.text "[{'op': 'set', 'path': ['a', 'b']}]")
    ∧ p !! "data" ≠ Some (Json.dumps (request_value "set" ["a"; "b"])).
Proof.
  eexists _, _. split; [reflexivity|].
  split; [by vm_compute|]. vm_compute. discriminate.
Qed.

(** C5, as the code has it. With an empty path file, url and name all go
    inside the serialised data object and the wrapper has data and key only;
    with a non-empty path url goes on the outer wrapper and a returned
    payload has no top-level file field. *)
Theorem get_payload_optional_fields self op path file url name h :
  (path = None ∨ path = Some [] ->
   _get_payload self op path file url name h
   = (Ok (base_payload self
            (Json.dumps (VDict (dict_set_opt "name" name
                                 (dict_set_opt "url" url
                                   (dict_set_opt "file" file
                                     [("op", VStr op); ("path", path_value h path)])))))),
      h))
  ∧ (forall items p h',
       path = Some items -> items ≠ [] ->
       _get_payload self op path file url name h = (Ok p, h') ->
       p !! "url" = url ∧ p !! "file" = None).
Proof.
  split; [apply get_payload_empty|].
  intros items p h' -> Hne Hp.
  destruct items as [|x [|y items]]; [done| |].
  - rewrite get_payload_single in Hp. injection Hp as <- _.
    by rewrite outer_payload_lookup_url, outer_payload_lookup_file.
  - rewrite get_payload_general in Hp.
    apply (f_equal fst) in Hp. cbn [fst] in Hp. rename Hp into Hw.
    apply wrap_payload_Ok in Hw. subst p.
    by rewrite outer_payload_lookup_url, outer_payload_lookup_file.
Qed.

Lemma get_payload_optional_fields_witness :
  let self := VyDevice_init "h" "k" in
  let p := outer_payload self (Json.text "{'op': 'load', 'path': 'a'}") (Some "u") in
  (_get_payload self "save" (Some []) (Some "/config/x") None None []
   = (Ok (base_payload self (Json.text "{'op': 'save', 'path': [], 'file': '/config/x'}")), []))
  ∧ (p !! "url" = Some "u" ∧ p !! "file" = None).
Proof.
  split.
  - apply (proj1 (get_payload_optional_fields (VyDevice_init "h" "k") "save" (Some [])
                    (Some "/config/x") None None [])).
    right. reflexivity.
  - apply (proj2 (get_payload_optional_fields (VyDevice_init "h" "k") "load"
                    (Some [Seg "a"]) (Some "f") (Some "u") None [])
             [Seg "a"] _ []).
    + reflexivity.
    + discriminate.
    + vm_compute. reflexivity.
Defined.

(** file with the non-empty path [a]: the returned payload has no file
    field at the top. *)
Lemma get_payload_no_top_level_file :
  ∃ p,
    _get_payload (VyDevice_init "h" "k") "load" (Some [Seg "a"]) (Some "f") None None []
    = (Ok p, [])
    ∧ ¬ is_Some (p !! "file").
Proof.
  eexists. split; [apply get_payload_single|].
  rewrite outer_payload_lookup_file. by intros [? ?].
Qed.

(** ** The three cases of an iteration *)

Lemma scan_step_seg op h data cur s :
  scan_step op {| st_heap := h; st_data := data; st_current := cur |} (Seg s)
  = {| st_heap := list_append h (cmd_path cur) s; st_data := data; st_current := cur |}.
Proof. reflexivity. Qed.

Lemma scan_step_nested_nonempty op h data cur l :
  deref h (cmd_path cur) ≠ [] ->
  scan_step op {| st_heap := h; st_data := data; st_current := cur |} (Nested l)
  = {| st_heap := h; st_data := data ++ [cur];
       st_current := {| cmd_op := op; cmd_path := l |} |}.
Proof. intros Hne. unfold scan_step. simpl. by destruct (deref h (cmd_path cur)). Qed.

Lemma scan_step_nested_empty op h data cur l :
  deref h (cmd_path cur) = [] ->
  scan_step op {| st_heap := h; st_data := data; st_current := cur |} (Nested l)
  = {| st_heap := h; st_data := data;
       st_current := {| cmd_op := op; cmd_path := l |} |}.
Proof. intros He. unfold scan_step. simpl. by rewrite He. Qed.

Lemma deref_Some h l xs : h !! l = Some xs -> deref h l = xs.
Proof. unfold deref. by intros ->. Qed.

Lemma deref_app_l h h2 l : l < length h -> deref (h ++ h2) l = deref h l.
Proof. intros Hl. unfold deref. by rewrite lookup_app_l. Qed.

Lemma list_append_app_l h h2 l s :
  l < length h -> list_append (h ++ h2) l s = list_append h l s ++ h2.
Proof. intros Hl. unfold list_append. by rewrite alter_app_l. Qed.

Lemma length_list_append h l s : length (list_append h l s) = length h.
Proof. apply length_alter. Qed.

(** C1, as the code has it. For the path [a, [b,c], d, [e]] with neither
    file nor name the batch is [{path:[a]}, {path:[b,c,d]}, {path:[e]}]: a
    nested sequence starts a new request whenever the current buffer is
    non-empty, and a plain segment is appended to the current path, also
    when that path is the list object of the preceding nested sequence
    (which is thereby extended in the caller's store). *)
Theorem get_payload_mixed self op a b c d e l1 l2 url h :
  h !! l1 = Some [b; c] ->
  h !! l2 = Some [e] ->
  _get_payload self op (Some [Seg a; Nested l1; Seg d; Nested l2]) None url None h
  = (Ok (outer_payload self
           (Json.dumps (VList [request_value op [a];
                               request_value op [b; c; d];
                               request_value op [e]])) url),
     list_append h l1 d ++ [[a]]).
Proof.
  intros H1 H2.
  assert (l1 < length h) as Hl1 by (by eapply lookup_lt_Some).
  assert (l2 < length h) as Hl2 by (by eapply lookup_lt_Some).
  assert (l1 ≠ l2) as Hne by (intros ->; congruence).
  assert (deref (list_append h l1 d ++ [[a]]) l1 = [b; c; d]) as D1.
  { rewrite deref_app_l by by rewrite length_list_append.
    rewrite deref_list_append_eq by done. by rewrite (deref_Some _ _ _ H1). }
  assert (deref (list_append h l1 d ++ [[a]]) l2 = [e]) as D2.
  { rewrite deref_app_l by by rewrite length_list_append.
    rewrite deref_list_append_ne by done. by apply deref_Some. }
  assert (deref (list_append h l1 d ++ [[a]]) (length h) = [a]) as D0.
  { rewrite <- (length_list_append h l1 d). apply deref_fresh. }
  rewrite get_payload_general.
  assert (scan op [Seg a; Nested l1; Seg d; Nested l2] h
          = ([{| cmd_op := op; cmd_path := length h |};
              {| cmd_op := op; cmd_path := l1 |};
              {| cmd_op := op; cmd_path := l2 |}],
             list_append h l1 d ++ [[a]])) as ->.
  { unfold scan, new_list. cbn [fold_left].
    rewrite scan_step_seg. cbn [cmd_path].
    rewrite (list_append_fresh h []). cbn [app].
    rewrite scan_step_nested_nonempty by (cbn [cmd_path]; by rewrite deref_fresh).
    rewrite scan_step_seg. cbn [cmd_path].
    rewrite list_append_app_l by done.
    rewrite scan_step_nested_nonempty by (cbn [cmd_path]; by rewrite D1).
    cbn [st_heap st_data st_current cmd_path]. by rewrite D2. }
  cbn [fst snd]. rewrite wrap_payload_list.
  unfold command_value, request_value. cbn [fmap list_fmap cmd_op cmd_path].
  by rewrite D0, D1, D2.
Qed.

Lemma get_payload_mixed_witness :
  _get_payload (VyDevice_init "h" "k") "set"
    (Some [Seg "a"; Nested 0; Seg "d"; Nested 1]) None None None [["b"; "c"]; ["e"]]
  = (Ok (outer_payload (VyDevice_init "h" "k")
           (Json.text ("[{'op': 'set', 'path': ['a']}, "
                       +:+ "{'op': 'set', 'path': ['b', 'c', 'd']}, "
                       +:+ "{'op': 'set', 'path': ['e']}]")) None),
     [["b"; "c"; "d"]; ["e"]; ["a"]]).
Proof.
  apply (get_payload_mixed (VyDevice_init "h" "k") "set" "a" "b" "c" "d" "e" 0 1 None
           [["b"; "c"]; ["e"]]); reflexivity.
Defined.

(** The path [a, [b,c], d, [e]]: three requests, not the four of
    [{path:[a]}, {path:[b,c]}, {path:[d]}, {path:[e]}]. *)
Lemma get_payload_mixed_merges :
  ∃ p h',
    _get_payload (VyDevice_init "h" "k") "set"
      (Some [Seg "a"; Nested 0; Seg "d"; Nested 1]) None None None [["b"; "c"]; ["e"]]
    = (Ok p, h')
    ∧ p !! "data" = Some (Json.dumps (VList [request_value "set" ["a"];
                                             request_value "set" ["b"; "c"; "d"];
                                             request_value "set" ["e"]]))
    ∧ p !! "data" ≠ Some (Json.dumps (VList [request_value "set" ["a"];
                                             request_value "set" ["b"; "c"];
                                             request_value "set" ["d"];
                                             request_value "set" ["e"]])).
Proof.
  eexists _, _. split; [reflexivity|].
  split; [by vm_compute|]. vm_compute. discriminate.
Qed.

(** C8, as the code has it. No entry of the output batch has an empty path:
    an empty nested sequence is dropped from the batch unless plain segments
    follow it, which are then appended to it. A request with an empty path
    comes out only when the empty nested sequence is the sole element of the
    input, and then as a single object, not as a batch entry. *)
Theorem get_payload_batch_paths_nonempty self op file url name h :
  (forall x y items p h',
     _get_payload self op (Some (x :: y :: items)) file url name h = (Ok p, h') ->
     ∃ paths,
       Forall (fun path => path ≠ []) paths
       ∧ p !! "data" = Some (Json.dumps (VList (request_value op <$> paths))))
  ∧ (forall l,
       h !! l = Some [] ->
       _get_payload self op (Some [Nested l]) file url name h
       = (Ok (outer_payload self (Json.dumps (request_value op [])) url), h)).
Proof.
  split.
  - intros x y items p h' Hp.
    rewrite get_payload_general in Hp.
    apply (f_equal fst) in Hp. cbn [fst] in Hp. rename Hp into Hw.
    apply wrap_payload_Ok in Hw. subst p.
    exists (scan_paths op (x :: y :: items) h).
    split.
    + unfold scan_paths. apply Forall_fmap.
      eapply Forall_impl; [apply scan_batch_ok|].
      by intros c [_ Hne].
    + by rewrite outer_payload_lookup_data, data_value_scan.
  - intros l Hl. rewrite get_payload_single.
    unfold item_value, request_value. by rewrite (deref_Some _ _ _ Hl).
Qed.

Lemma get_payload_batch_paths_nonempty_witness :
  let self := VyDevice_init "h" "k" in
  (∃ paths,
     Forall (fun path => path ≠ []) paths
     ∧ outer_payload self (Json.text "[{'op': 'set', 'path': ['a']}]") None !! "data"
       = Some (Json.dumps (VList (request_value "set" <$> paths))))
  ∧ _get_payload self "set" (Some [Nested 0]) None None None [[]]
    = (Ok (outer_payload self (Json.text "{'op': 'set', 'path': []}") None), [[]]).
Proof.
  split.
  - apply (proj1 (get_payload_batch_paths_nonempty (VyDevice_init "h" "k") "set"
                    None None None [[]])
             (Seg "a") (Nested 0) [] _ [[]; ["a"]]).
    vm_compute. reflexivity.
  - apply (proj2 (get_payload_batch_paths_nonempty (VyDevice_init "h" "k") "set"
                    None None None [[]]) 0).
    reflexivity.
Defined.

(** The path [a, []]: the trailing empty sequence leaves no entry behind,
    so the batch is [{path:[a]}] and not [{path:[a]}, {path:[]}]. *)
Lemma get_payload_trailing_empty_dropped :
  ∃ p h',
    _get_payload (VyDevice_init "h" "k") "set" (Some [Seg "a"; Nested 0]) None None None [[]]
    = (Ok p, h')
    ∧ p !! "data" = Some (Json.dumps (VList [request_value "set" ["a"]]))
    ∧ p !! "data" ≠ Some (Json.dumps (VList [request_value "set" ["a"];
                                             request_value "set" []])).
Proof.
  eexists _, _. split; [reflexivity|].
  split; [by vm_compute|]. vm_compute. discriminate.
Qed.

(** ** The executor *)

Lemma delitem_outer_payload self d url :
  delitem (outer_payload self d url) "key" = Ok (delete "key" (outer_payload self d url)).
Proof. unfold delitem. by rewrite outer_payload_lookup_key. Qed.

(** The executor after the builder has answered. *)
Lemma api_request_after_payload post self command op path file url name h p h' :
  _get_payload self op path file (Some (_get_url self command)) name h = (Ok p, h') ->
  _api_request post self command op path file url name h
  = (let* locals := post_and_classify post self (_get_url self command) p
                      (JObj [], JBool false) in
     Ok (response_of p locals), h').
Proof.
  intros Hp. unfold _api_request. rewrite Hp.
  apply get_payload_shape in Hp as (v & url' & _ & ->).
  destruct (post_and_classify _ _ _ _ _) as [[[s r] e]|]; simpl; [|done].
  by rewrite delitem_outer_payload.
Qed.

Lemma api_request_builder_raises post self command op path file url name h e h' :
  _get_payload self op path file (Some (_get_url self command)) name h = (Raise e, h') ->
  _api_request post self command op path file url name h = (Raise e, h').
Proof. intros Hp. unfold _api_request. by rewrite Hp. Qed.

(** The credential is gone from every response the executor returns. *)
Lemma api_request_redacted post self command op path file url name h r h' :
  _api_request post self command op path file url name h = (Ok r, h') ->
  request r !! "key" = None.
Proof.
  intros Hr.
  destruct (_get_payload self op path file (Some (_get_url self command)) name h)
    as [[p|e] h1] eqn:Hp.
  - rewrite (api_request_after_payload _ _ _ _ _ _ _ _ _ _ _ Hp) in Hr.
    destruct (post_and_classify _ _ _ _ _) as [locals|]; simpl in Hr; [|done].
    injection Hr as <- _. apply lookup_delete_eq.
  - by rewrite (api_request_builder_raises _ _ _ _ _ _ _ _ _ _ _ Hp) in Hr.
Qed.

(** *** The outer [try], outcome by outcome *)

Lemma classify_connection_error post self url p locals msg :
  post url (verify self) p (timeout self) = Raise (ConnectionError msg) ->
  post_and_classify post self url p locals
  = Ok (0%Z, locals.1, JStr ("connection error: " +:+ msg)).
Proof. intros Hpost. unfold post_and_classify. by rewrite Hpost. Qed.

Lemma classify_other_exception post self url p locals e :
  post url (verify self) p (timeout self) = Raise e ->
  is_ConnectionError e = false ->
  post_and_classify post self url p locals = Raise e.
Proof. intros Hpost He. unfold post_and_classify. rewrite Hpost. simpl. by rewrite He. Qed.

Lemma classify_http_error post self url p locals resp :
  post url (verify self) p (timeout self) = Ok resp ->
  status_code resp ≠ 200%Z ->
  post_and_classify post self url p locals
  = Ok (status_code resp, locals.1, JStr "http error").
Proof.
  intros Hpost Hs. unfold post_and_classify. rewrite Hpost. simpl.
  by destruct (Z.eqb_spec (status_code resp) 200).
Qed.

Lemma classify_200 post self url p locals resp r e :
  post url (verify self) p (timeout self) = Ok resp ->
  status_code resp = 200%Z ->
  decode_body resp locals = Ok (r, e) ->
  post_and_classify post self url p locals = Ok (200%Z, r, e).
Proof.
  intros Hpost Hs Hd. unfold post_and_classify. rewrite Hpost. simpl.
  by rewrite Hs, Z.eqb_refl, Hd.
Qed.

Lemma classify_200_raises post self url p locals resp e :
  post url (verify self) p (timeout self) = Ok resp ->
  status_code resp = 200%Z ->
  decode_body resp locals = Raise e ->
  is_ConnectionError e = false ->
  post_and_classify post self url p locals = Raise e.
Proof.
  intros Hpost Hs Hd He. unfold post_and_classify. rewrite Hpost. simpl.
  rewrite Hs, Z.eqb_refl, Hd. simpl. by rewrite He.
Qed.

(** *** The inner [try], outcome by outcome *)

Lemma decode_body_undecodable resp locals msg :
  json resp = Raise (JSONDecodeError msg) ->
  decode_body resp locals = Ok (locals.1, JStr "json decode error").
Proof. intros Hj. unfold decode_body. by rewrite Hj. Qed.

Lemma decode_body_success resp locals kvs s d :
  json resp = Ok (JObj kvs) ->
  dict_get "success" kvs = Some s -> eq_True s = true ->
  dict_get "data" kvs = Some d ->
  decode_body resp locals = Ok (d, JBool false).
Proof.
  intros Hj Hs Ht Hd. unfold decode_body. rewrite Hj. simpl.
  rewrite Hs. simpl. rewrite Ht, Hd. reflexivity.
Qed.

Lemma decode_body_failure resp locals kvs s e :
  json resp = Ok (JObj kvs) ->
  dict_get "success" kvs = Some s -> eq_True s = false ->
  dict_get "error" kvs = Some e ->
  decode_body resp locals = Ok (locals.1, e).
Proof.
  intros Hj Hs Ht He. unfold decode_body. rewrite Hj. simpl.
  rewrite Hs. simpl. rewrite Ht, He. reflexivity.
Qed.

Lemma decode_body_no_success resp locals kvs :
  json resp = Ok (JObj kvs) ->
  dict_get "success" kvs = None ->
  decode_body resp locals = Raise (KeyError "success").
Proof. intros Hj Hs. unfold decode_body. rewrite Hj. simpl. by rewrite Hs. Qed.

(** ** The fourteen operations *)

(** No wrapper passes [file] or [name] together with a path, so the builder
    answers every one of them, and the call is the outer [try] followed by
    the redaction. *)
Lemma run_after_payload post self c h :
  ∃ url p h',
    run post self c h
    = (let* locals := post_and_classify post self url p (JObj [], JBool false) in
       Ok (response_of p locals), h').
Proof.
  destruct c; simpl;
    unfold retrieve_show_config, retrieve_return_values, retrieve_exists, reset,
      image_add, image_delete, show, generate, configure_set, configure_delete,
      config_file_save, config_file_load, reboot, poweroff;
    match goal with
    | |- context [_api_request _ _ ?cmd ?op ?path ?file _ ?name _] =>
        destruct (get_payload_returns self op path file (Some (_get_url self cmd)) name h)
          as (p & h' & Hp); [auto|];
        exists (_get_url self cmd), p, h';
        by apply api_request_after_payload
    end.
Qed.

Lemma run_redacted post self c h r h' :
  run post self c h = (Ok r, h') -> request r !! "key" = None.
Proof.
  destruct c; simpl; apply api_request_redacted.
Qed.

(** C4. Whatever the operation and whatever the outcome, a returned response
    does not carry the credential: its request field has no key entry. *)
Theorem run_request_has_no_key post self c h r h' :
  run post self c h = (Ok r, h') ->
  request r !! "key" = None.
Proof. apply run_redacted. Qed.

Lemma run_request_has_no_key_witness :
  let post : transport := fun _ _ _ _ => Raise (ConnectionError "refused") in
  request {| status := 0;
             request := {["data" := Json.text
                                   "{'op': 'show', 'path': [], 'url': 'https://h:443/show'}"]};
             result_ := JObj [];
             error := JStr "connection error: refused" |} !! "key" = None.
Proof.
  apply (run_request_has_no_key (fun _ _ _ _ => Raise (ConnectionError "refused"))
           (VyDevice_init "h" "secret") (Show (Some [])) [] _ []).
  vm_compute. reflexivity.
Defined.

(** C7. A 200 answer whose body has the success flag false and an error
    string gives status 200, an empty result and that error; with the flag
    true it gives the data field as result and error False; any other
    status gives the error "http error" and an empty result. *)
Theorem run_classifies_answer post self c h resp :
  answers post (Ok resp) ->
  (forall kvs e,
     status_code resp = 200%Z -> json resp = Ok (JObj kvs) ->
     dict_get "success" kvs = Some (JBool false) ->
     dict_get "error" kvs = Some (JStr e) ->
     ∃ req, (run post self c h).1
            = Ok {| status := 200; request := req; result_ := JObj []; error := JStr e |})
  ∧ (forall kvs d,
       status_code resp = 200%Z -> json resp = Ok (JObj kvs) ->
       dict_get "success" kvs = Some (JBool true) ->
       dict_get "data" kvs = Some d ->
       ∃ req, (run post self c h).1
              = Ok {| status := 200; request := req; result_ := d; error := JBool false |})
  ∧ (status_code resp ≠ 200%Z ->
     ∃ req, (run post self c h).1
            = Ok {| status := status_code resp; request := req;
                    result_ := JObj []; error := JStr "http error" |}).
Proof.
  intros Hpost.
  destruct (run_after_payload post self c h) as (url & p & h' & ->).
  cbn [fst].
  split; [|split].
  - intros kvs e Hs Hj Hflag He.
    erewrite classify_200; [by eexists|apply Hpost|done|].
    by eapply decode_body_failure.
  - intros kvs d Hs Hj Hflag Hd.
    erewrite classify_200; [by eexists|apply Hpost|done|].
    by eapply decode_body_success.
  - intros Hs. erewrite classify_http_error; [by eexists|apply Hpost|done].
Qed.

Lemma run_classifies_answer_witness :
  let post : transport :=
    fun _ _ _ _ =>
      Ok {| status_code := 200;
            json := Ok (JObj [("success", JBool false); ("error", JStr "bad path")]) |} in
  ∃ req, (run post (VyDevice_init "h" "k") (Show (Some [Seg "a"])) []).1
         = Ok {| status := 200; request := req; result_ := JObj [];
                 error := JStr "bad path" |}.
Proof.
  eapply (run_classifies_answer _ (VyDevice_init "h" "k") (Show (Some [Seg "a"])) []
            {| status_code := 200;
               json := Ok (JObj [("success", JBool false); ("error", JStr "bad path")]) |});
    [intros ? ? ? ? | | | | ]; reflexivity.
Defined.

(** C3, as the code has it. A call returns a response when the transport
    raises a ConnectionError (status 0, empty result, error "connection
    error: " followed by the message), when it answers with a status other
    than 200, and when it answers 200 with a body that does not decode or
    that decodes to an object holding the success flag and the field the
    flag selects. Only those two exception classes are caught: any other
    exception of the transport is raised to the caller. *)
Theorem run_returns_or_raises post self c h :
  (forall msg,
     answers post (Raise (ConnectionError msg)) ->
     ∃ req, (run post self c h).1
            = Ok {| status := 0; request := req; result_ := JObj [];
                    error := JStr ("connection error: " +:+ msg) |})
  ∧ (forall resp,
       answers post (Ok resp) -> status_code resp ≠ 200%Z ->
       ∃ req, (run post self c h).1
              = Ok {| status := status_code resp; request := req;
                      result_ := JObj []; error := JStr "http error" |})
  ∧ (forall resp msg,
       answers post (Ok resp) -> status_code resp = 200%Z ->
       json resp = Raise (JSONDecodeError msg) ->
       ∃ req, (run post self c h).1
              = Ok {| status := 200; request := req; result_ := JObj [];
                      error := JStr "json decode error" |})
  ∧ (forall resp kvs s v,
       answers post (Ok resp) -> status_code resp = 200%Z ->
       json resp = Ok (JObj kvs) ->
       dict_get "success" kvs = Some s ->
       dict_get (if eq_True s then "data" else "error") kvs = Some v ->
       ∃ req, (run post self c h).1
              = Ok {| status := 200; request := req;
                      result_ := if eq_True s then v else JObj [];
                      error := if eq_True s then JBool false else v |})
  ∧ (forall e,
       answers post (Raise e) -> is_ConnectionError e = false ->
       (run post self c h).1 = Raise e).
Proof.
  destruct (run_after_payload post self c h) as (url & p & h' & ->).
  cbn [fst].
  split; [|split; [|split; [|split]]].
  - intros msg Hpost. erewrite classify_connection_error; [by eexists|apply Hpost].
  - intros resp Hpost Hs. erewrite classify_http_error; [by eexists|apply Hpost|done].
  - intros resp msg Hpost Hs Hj.
    erewrite classify_200; [by eexists|apply Hpost|done|].
    by eapply decode_body_undecodable.
  - intros resp kvs s v Hpost Hs Hj Hflag Hv.
    destruct (eq_True s) eqn:Ht.
    + erewrite classify_200; [by eexists|apply Hpost|done|].
      by eapply decode_body_success.
    + erewrite classify_200; [by eexists|apply Hpost|done|].
      by eapply decode_body_failure.
  - intros e Hpost He. erewrite classify_other_exception; [done|apply Hpost|done].
Qed.

Lemma run_returns_or_raises_witness :
  let post : transport := fun _ _ _ _ => Raise (ConnectionError "refused") in
  ∃ req, (run post (VyDevice_init "h" "k") (Reboot path_now) []).1
         = Ok {| status := 0; request := req; result_ := JObj [];
                 error := JStr "connection error: refused" |}.
Proof.
  eapply (run_returns_or_raises _ (VyDevice_init "h" "k") (Reboot path_now) []).
  intros ? ? ? ?. reflexivity.
Defined.

(** A 200 answer whose body is the empty object: the missing success key
    raises out of the call, so not every call returns a response. *)
Lemma run_can_raise :
  let post : transport :=
    fun _ _ _ _ => Ok {| status_code := 200; json := Ok (JObj []) |} in
  (run post (VyDevice_init "h" "k") (Show (Some [])) []).1 = Raise (KeyError "success")
  ∧ ¬ (forall c, ∃ r, (run post (VyDevice_init "h" "k") c []).1 = Ok r).
Proof.
  split; [reflexivity|].
  intros Hall. destruct (Hall (Show (Some []))) as [r Hr]. discriminate Hr.
Qed.

(** C6, at the failing input. The image url of the caller never reaches the
    payload: [_api_request] rebinds url to the endpoint address first, so
    the builder puts that address into the data object and every image url
    gives the same request. *)
Theorem image_add_sends_endpoint_url :
  let post : transport :=
    fun _ _ _ _ =>
      Ok {| status_code := 200;
            json := Ok (JObj [("success", JBool true); ("data", JObj [])]) |} in
  let self := VyDevice_init "h" "k" in
  (∃ r, image_add post self (Some "http://example.com/vyos.iso") [] = (Ok r, [])
        ∧ request r !! "data"
          = Some (Json.text "{'op': 'add', 'path': [], 'url': 'https://h:443/image'}")
        ∧ request r !! "url" = None)
  ∧ (forall post' self' u1 u2 h,
       image_add post' self' u1 h = image_add post' self' u2 h).
Proof.
  split; [|reflexivity].
  eexists. split; [reflexivity|]. split; by vm_compute.
Qed.


(** * Further properties of the builder *)

(** ** When the builder raises *)

Lemma get_payload_general_raises self op x y items file url name h :
  file ≠ None ∨ name ≠ None ->
  (_get_payload self op (Some (x :: y :: items)) file url name h).1 = Raise TypeError.
Proof.
  intros Hfn. rewrite get_payload_general. cbn [fst].
  destruct file as [f|]; [apply wrap_payload_list_file|].
  destruct name as [n|]; [apply wrap_payload_list_name|].
  by destruct Hfn.
Qed.

(** X1. The builder raises exactly when the path has two or more elements
    and file or name is given, and what it raises is a TypeError: the batch
    is a list, which refuses the string index of the late stores. *)
Theorem get_payload_raises_iff self op path file url name h e :
  (_get_payload self op path file url name h).1 = Raise e
  <-> e = TypeError
      ∧ (∃ x y items, path = Some (x :: y :: items))
      ∧ (file ≠ None ∨ name ≠ None).
Proof.
  split.
  - intros Hr. destruct path as [[|x [|y items]]|].
    + rewrite get_payload_empty in Hr by auto. discriminate.
    + rewrite get_payload_single in Hr. discriminate.
    + rewrite get_payload_general in Hr. cbn [fst] in Hr.
      destruct file as [f|].
      * rewrite wrap_payload_list_file in Hr. injection Hr as <-. eauto 10.
      * destruct name as [n|].
        -- rewrite wrap_payload_list_name in Hr. injection Hr as <-. eauto 10.
        -- by rewrite wrap_payload_list in Hr.
    + rewrite get_payload_empty in Hr by auto. discriminate.
  - intros (-> & (x & y & items & ->) & Hfn).
    by apply get_payload_general_raises.
Qed.

(** ** What the builder does to the caller's lists *)

Lemma store_grows_refl h : store_grows h h.
Proof. intros l xs Hl. exists []. by rewrite app_nil_r. Qed.

Lemma store_grows_trans h1 h2 h3 :
  store_grows h1 h2 -> store_grows h2 h3 -> store_grows h1 h3.
Proof.
  intros H12 H23 l xs Hl.
  destruct (H12 l xs Hl) as [ys Hys]. destruct (H23 l _ Hys) as [zs Hzs].
  exists (ys ++ zs). by rewrite app_assoc.
Qed.

Lemma store_grows_list_append h l s : store_grows h (list_append h l s).
Proof.
  intros l' xs Hl'. unfold list_append.
  destruct (decide (l = l')) as [->|Hne].
  - exists [s]. by rewrite list_lookup_alter_eq, Hl'.
  - exists []. by rewrite list_lookup_alter_ne, app_nil_r.
Qed.

Lemma store_grows_new_list h : store_grows h (new_list h).2.
Proof.
  intros l xs Hl. exists []. simpl.
  rewrite lookup_app_l by by eapply lookup_lt_Some. by rewrite app_nil_r.
Qed.

Lemma scan_step_store_grows op st p :
  store_grows (st_heap st) (st_heap (scan_step op st p)).
Proof. destruct p; simpl; [apply store_grows_list_append | apply store_grows_refl]. Qed.

Lemma scan_loop_store_grows op items : forall st,
  store_grows (st_heap st) (st_heap (fold_left (scan_step op) items st)).
Proof.
  induction items as [|p items IH]; intros st; simpl; [apply store_grows_refl|].
  eapply store_grows_trans; [apply scan_step_store_grows | apply IH].
Qed.

Lemma scan_step_length op st p :
  length (st_heap (scan_step op st p)) = length (st_heap st).
Proof. destruct p; simpl; [apply length_list_append | done]. Qed.

Lemma scan_loop_length op items : forall st,
  length (st_heap (fold_left (scan_step op) items st)) = length (st_heap st).
Proof.
  induction items as [|p items IH]; intros st; simpl; [done|].
  by rewrite IH, scan_step_length.
Qed.

Lemma scan_store_grows op items h : store_grows h (scan op items h).2.
Proof.
  unfold scan, new_list. cbn [snd].
  set (st0 := {| st_heap := h ++ [[]]; st_data := [];
                 st_current := {| cmd_op := op; cmd_path := length h |} |}).
  eapply store_grows_trans; [apply (store_grows_new_list h)|].
  exact (scan_loop_store_grows op items st0).
Qed.

Lemma scan_length op items h : length (scan op items h).2 = S (length h).
Proof.
  unfold scan, new_list. cbn [snd].
  rewrite scan_loop_length. cbn [st_heap]. rewrite length_app. simpl. lia.
Qed.

(** The store after the builder, branch by branch. *)
Lemma get_payload_store self op path file url name h :
  (_get_payload self op path file url name h).2
  = match path with
    | Some (x :: y :: items) => (scan op (x :: y :: items) h).2
    | _ => h
    end.
Proof.
  destruct path as [[|x [|y items]]|].
  - by rewrite get_payload_empty by auto.
  - by rewrite get_payload_single.
  - by rewrite get_payload_general.
  - by rewrite get_payload_empty by auto.
Qed.

(** X2. Whether it returns or raises, the builder never removes a list
    object of the caller nor any of its segments: every list is still there
    afterwards and has at most gained segments at its end; at most one list
    object is created. *)
Theorem get_payload_store_grows self op path file url name h :
  store_grows h (_get_payload self op path file url name h).2
  ∧ length h <= length (_get_payload self op path file url name h).2 <= S (length h).
Proof.
  rewrite get_payload_store.
  destruct path as [[|x [|y items]]|];
    try (split; [apply store_grows_refl | lia]).
  split; [apply scan_store_grows | rewrite scan_length; lia].
Qed.

Lemma get_payload_store_grows_witness :
  store_grows [["b"; "c"]; ["e"]] [["b"; "c"; "d"]; ["e"]; ["a"]].
Proof.
  apply (proj1 (get_payload_store_grows (VyDevice_init "h" "k") "set"
                  (Some [Seg "a"; Nested 0; Seg "d"; Nested 1]) None None None
                  [["b"; "c"]; ["e"]])).
Defined.

Lemma nested_locs_cons_seg s items : nested_locs (Seg s :: items) = nested_locs items.
Proof. reflexivity. Qed.

Lemma nested_locs_cons_nested l items :
  nested_locs (Nested l :: items) = l :: nested_locs items.
Proof. reflexivity. Qed.

Lemma scan_loop_untouched op l items : forall st,
  cmd_path (st_current st) ≠ l ->
  l ∉ nested_locs items ->
  st_heap (fold_left (scan_step op) items st) !! l = st_heap st !! l.
Proof.
  induction items as [|[s|l'] items IH]; intros st Hcur Hl; [done| |].
  - cbn [fold_left]. rewrite IH; [|done|done].
    cbn [scan_step st_heap]. unfold list_append. by rewrite list_lookup_alter_ne.
  - rewrite nested_locs_cons_nested in Hl. apply not_elem_of_cons in Hl as [Hne Hl].
    cbn [fold_left]. rewrite IH; [done| |done].
    cbn [scan_step st_current cmd_path]. congruence.
Qed.

Lemma scan_untouched op items h l :
  l ∉ nested_locs items -> l < length h ->
  (scan op items h).2 !! l = h !! l.
Proof.
  intros Hl Hlt. unfold scan, new_list. cbn [snd].
  rewrite scan_loop_untouched; [|cbn [st_current cmd_path]; lia|done].
  cbn [st_heap]. by rewrite lookup_app_l.
Qed.

(** X3. The builder changes no list object other than those that occur as
    nested sequences in the path: any other list of the caller reads the
    same before and after. *)
Theorem get_payload_untouched self op items file url name h l :
  l ∉ nested_locs items ->
  l < length h ->
  (_get_payload self op (Some items) file url name h).2 !! l = h !! l.
Proof.
  intros Hl Hlt. rewrite get_payload_store.
  destruct items as [|x [|y items]]; [done|done|].
  by apply scan_untouched.
Qed.

Lemma get_payload_untouched_witness :
  (_get_payload (VyDevice_init "h" "k") "set"
     (Some [Nested 0; Seg "d"; Seg "e"]) None None None [["b"]; ["keep"]]).2 !! 1
  = [["b"]; ["keep"]] !! 1.
Proof.
  apply (get_payload_untouched (VyDevice_init "h" "k") "set"
           [Nested 0; Seg "d"; Seg "e"] None None None [["b"]; ["keep"]] 1).
  - vm_compute. intros H. by repeat (apply elem_of_cons in H as [H|H]; [done|]);
      apply elem_of_nil in H.
  - simpl. lia.
Defined.

Lemma deref_snoc_empty h l : deref h l = [] -> deref (h ++ [[]]) l = [].
Proof.
  intros He. unfold deref in *.
  destruct (decide (l < length h)) as [Hlt|Hge].
  - by rewrite lookup_app_l.
  - rewrite lookup_app_r by lia.
    by destruct (l - length h) as [|[|n]].
Qed.

Lemma scan_loop_only_empty op h items : forall cur,
  deref (h ++ [[]]) (cmd_path cur) = [] ->
  Forall (fun p => ∃ l, p = Nested l ∧ deref h l = []) items ->
  ∃ cur',
    fold_left (scan_step op) items
      {| st_heap := h ++ [[]]; st_data := []; st_current := cur |}
    = {| st_heap := h ++ [[]]; st_data := []; st_current := cur' |}
    ∧ deref (h ++ [[]]) (cmd_path cur') = [].
Proof.
  induction items as [|p items IH]; intros cur Hcur Hall; [by exists cur|].
  apply Forall_cons in Hall as [(l & -> & Hl) Hall].
  cbn [fold_left]. rewrite scan_step_nested_empty by done.
  apply IH; [|done]. cbn [cmd_path]. by apply deref_snoc_empty.
Qed.

(** X4. A path of two or more nested sequences that are all empty sends an
    empty batch: the data is the JSON text of the empty array. *)
Theorem get_payload_only_empty_nested self op items url h :
  2 <= length items ->
  Forall (fun p => ∃ l, p = Nested l ∧ deref h l = []) items ->
  _get_payload self op (Some items) None url None h
  = (Ok (outer_payload self "[]" url), h ++ [[]]).
Proof.
  intros Hlen Hall.
  destruct items as [|x [|y items]]; simpl in Hlen; [lia|lia|].
  rewrite get_payload_general.
  assert (scan op (x :: y :: items) h = ([], h ++ [[]])) as ->.
  { unfold scan, new_list.
    destruct (scan_loop_only_empty op h (x :: y :: items)
                {| cmd_op := op; cmd_path := length h |}) as (cur' & -> & Hcur');
      [cbn [cmd_path]; apply deref_fresh | done |].
    cbn [st_heap st_data st_current]. by rewrite Hcur'. }
  cbn [fst snd]. by rewrite wrap_payload_list.
Qed.

Lemma get_payload_only_empty_nested_witness :
  _get_payload (VyDevice_init "h" "k") "set" (Some [Nested 0; Nested 1]) None None None
    [[]; []]
  = (Ok (outer_payload (VyDevice_init "h" "k") "[]" None), [[]; []; []]).
Proof.
  apply (get_payload_only_empty_nested (VyDevice_init "h" "k") "set"
           [Nested 0; Nested 1] None [[]; []]).
  - simpl. lia.
  - repeat constructor; eexists; split; reflexivity.
Defined.


(** ** The batch by value *)

(** The paths of the batch a state would give if the loop ended there. *)
Lemma final_paths st :
  (fun d => deref (st_heap st) (cmd_path d))
    <$> match deref (st_heap st) (cmd_path (st_current st)) with
        | [] => st_data st
        | _ :: _ => st_data st ++ [st_current st]
        end
  = ((fun d => deref (st_heap st) (cmd_path d)) <$> st_data st)
    ++ flush (deref (st_heap st) (cmd_path (st_current st))).
Proof.
  destruct (deref (st_heap st) (cmd_path (st_current st))) eqn:Hd; simpl.
  - by rewrite app_nil_r.
  - by rewrite fmap_app, fmap_cons, Hd.
Qed.

Lemma item_view_list_append h c s items :
  c ∉ nested_locs items ->
  item_view (list_append h c s) <$> items = item_view h <$> items.
Proof.
  induction items as [|[s'|l] items IH]; intros Hc; [done| |].
  - rewrite !fmap_cons. f_equal. by apply IH.
  - rewrite nested_locs_cons_nested in Hc. apply not_elem_of_cons in Hc as [Hne Hc].
    rewrite !fmap_cons. f_equal; [|by apply IH].
    unfold item_view. by rewrite deref_list_append_ne.
Qed.

Lemma data_paths_list_append h c s (data : list command) :
  Forall (fun d => cmd_path d ≠ c) data ->
  (fun d => deref (list_append h c s) (cmd_path d)) <$> data
  = (fun d => deref h (cmd_path d)) <$> data.
Proof.
  induction 1 as [|d data Hd _ IH]; [done|].
  rewrite !fmap_cons. f_equal; [|done].
  by rewrite deref_list_append_ne.
Qed.

(** The loop invariant behind the by-value reading: the list objects still
    to come are distinct from one another, from the current one and from
    those already in the batch. *)
Lemma scan_loop_chunks op rest : forall st,
  NoDup (nested_locs rest) ->
  Forall (fun l => l < length (st_heap st)) (nested_locs rest) ->
  cmd_path (st_current st) < length (st_heap st) ->
  cmd_path (st_current st) ∉ nested_locs rest ->
  Forall (fun d => cmd_path d ≠ cmd_path (st_current st)
                   ∧ cmd_path d ∉ nested_locs rest) (st_data st) ->
  let st' := fold_left (scan_step op) rest st in
  ((fun d => deref (st_heap st') (cmd_path d)) <$> st_data st')
    ++ flush (deref (st_heap st') (cmd_path (st_current st')))
  = ((fun d => deref (st_heap st) (cmd_path d)) <$> st_data st)
    ++ chunks (deref (st_heap st) (cmd_path (st_current st)))
              (item_view (st_heap st) <$> rest).
Proof.
  induction rest as [|[s|l] rest IH]; intros st Hnd Hvalid Hcur Hfresh Hdata; [done| |].
  - cbn zeta. cbn [fold_left].
    rewrite nested_locs_cons_seg in *.
    specialize (IH (scan_step op st (Seg s))).
    cbn zeta in IH. rewrite IH; clear IH.
    + cbn [scan_step st_heap st_data st_current].
      rewrite item_view_list_append by done.
      rewrite deref_list_append_eq by done.
      rewrite data_paths_list_append; [done|].
      eapply Forall_impl; [exact Hdata|]. by intros d [Hd _].
    + done.
    + cbn [scan_step st_heap]. by rewrite length_list_append.
    + cbn [scan_step st_heap st_current]. by rewrite length_list_append.
    + done.
    + done.
  - cbn zeta. cbn [fold_left].
    rewrite nested_locs_cons_nested in *.
    apply NoDup_cons in Hnd as [Hl Hnd].
    apply Forall_cons in Hvalid as [Hlv Hvalid].
    apply not_elem_of_cons in Hfresh as [Hcl Hfresh].
    specialize (IH (scan_step op st (Nested l))).
    cbn zeta in IH. rewrite IH; clear IH.
    + cbn [scan_step st_heap st_data st_current cmd_path].
      rewrite fmap_cons. cbn [item_view chunks].
      rewrite final_paths. by rewrite <- app_assoc.
    + done.
    + done.
    + done.
    + done.
    + cbn [scan_step st_heap st_data st_current cmd_path].
      assert (Forall (fun d => cmd_path d ≠ l ∧ cmd_path d ∉ nested_locs rest)
                (st_data st)) as Hdata'.
      { eapply Forall_impl; [exact Hdata|].
        intros d [_ Hd]. by apply not_elem_of_cons in Hd. }
      destruct (deref (st_heap st) (cmd_path (st_current st))); [done|].
      apply Forall_app. split; [done|].
      apply Forall_singleton. split; [congruence | done].
Qed.

Lemma item_view_new_list h items :
  Forall (fun l => l < length h) (nested_locs items) ->
  item_view (h ++ [[]]) <$> items = item_view h <$> items.
Proof.
  induction items as [|[s|l] items IH]; intros Hv; [done| |].
  - rewrite !fmap_cons. f_equal. by apply IH.
  - rewrite nested_locs_cons_nested in Hv. apply Forall_cons in Hv as [Hl Hv].
    rewrite !fmap_cons. f_equal; [|by apply IH].
    unfold item_view. by rewrite deref_app_l.
Qed.

Lemma scan_paths_chunks op items h :
  NoDup (nested_locs items) ->
  Forall (fun l => l < length h) (nested_locs items) ->
  scan_paths op items h = chunks [] (item_view h <$> items).
Proof.
  intros Hnd Hvalid. unfold scan_paths, scan, new_list. cbn [fst snd].
  set (st0 := {| st_heap := h ++ [[]]; st_data := [];
                 st_current := {| cmd_op := op; cmd_path := length h |} |}).
  rewrite final_paths.
  pose proof (scan_loop_chunks op items st0) as Hloop. cbn zeta in Hloop.
  rewrite Hloop; clear Hloop.
  - cbn [st0 st_heap st_data st_current cmd_path fmap list_fmap app].
    by rewrite deref_fresh, item_view_new_list.
  - done.
  - cbn [st0 st_heap]. rewrite length_app. simpl.
    eapply Forall_impl; [exact Hvalid|]. intros l Hl. simpl in Hl. lia.
  - cbn [st0 st_heap st_current cmd_path]. rewrite length_app. simpl. lia.
  - cbn [st0 st_current cmd_path]. intros Hin.
    eapply Forall_forall in Hvalid; [|exact Hin]. simpl in Hvalid. lia.
  - cbn [st0 st_data]. constructor.
Qed.

(** X5. When the nested sequences of the path are distinct list objects,
    the batch is a function of the values alone: each nested sequence closes
    the buffer (which becomes a request if it is not empty) and seeds the
    next one, each plain segment extends the buffer, and the buffer left at
    the end is closed the same way. *)
Theorem get_payload_by_value self op x y items url h :
  NoDup (nested_locs (x :: y :: items)) ->
  Forall (fun l => l < length h) (nested_locs (x :: y :: items)) ->
  (_get_payload self op (Some (x :: y :: items)) None url None h).1
  = Ok (outer_payload self
          (Json.dumps (VList (request_value op
                                <$> chunks [] (item_view h <$> x :: y :: items))))
          url).
Proof.
  intros Hnd Hvalid.
  rewrite get_payload_general. cbn [fst].
  by rewrite wrap_payload_list, <- (scan_paths_chunks op), <- data_value_scan.
Qed.


Lemma get_payload_by_value_witness :
  (_get_payload (VyDevice_init "h" "k") "set"
     (Some [Seg "a"; Nested 0; Seg "d"; Nested 1]) None None None [["b"; "c"]; ["e"]]).1
  = Ok (outer_payload (VyDevice_init "h" "k")
          (Json.dumps (VList (request_value "set" <$> [["a"]; ["b"; "c"; "d"]; ["e"]])))
          None).
Proof.
  apply (get_payload_by_value (VyDevice_init "h" "k") "set" (Seg "a") (Nested 0)
           [Seg "d"; Nested 1] None [["b"; "c"]; ["e"]]).
  - vm_compute. repeat constructor; intros H;
      repeat (apply elem_of_cons in H as [H|H]; [done|]); by apply elem_of_nil in H.
  - vm_compute. repeat constructor.
Defined.

(** * Further properties of the executor *)

(** X6. A path of two or more elements together with file or name makes
    the executor raise the builder's TypeError, whatever the transport: the
    request is never sent. *)
Theorem api_request_type_error post self command op x y items file url name h :
  file ≠ None ∨ name ≠ None ->
  (_api_request post self command op (Some (x :: y :: items)) file url name h).1
  = Raise TypeError.
Proof.
  intros Hfn.
  destruct (_get_payload self op (Some (x :: y :: items)) file
              (Some (_get_url self command)) name h) as [r h1] eqn:Hp.
  assert (r = Raise TypeError) as ->.
  { change r with (r, h1).1. rewrite <- Hp.
    by apply get_payload_general_raises. }
  by rewrite (api_request_builder_raises _ _ _ _ _ _ _ _ _ _ _ Hp).
Qed.

Lemma api_request_type_error_witness :
  (_api_request (fun _ _ _ _ => Raise (ConnectionError "unreachable"))
     (VyDevice_init "h" "k") "configure" "set" (Some [Seg "a"; Seg "b"])
     (Some "f") None None []).1
  = Raise TypeError.
Proof.
  apply (api_request_type_error _ (VyDevice_init "h" "k") "configure" "set"
           (Seg "a") (Seg "b") [] (Some "f") None None []).
  left. discriminate.
Defined.

(** ** Bodies that decode but lack what the executor reads *)

Lemma decode_body_not_object resp locals v :
  json resp = Ok v ->
  (forall kvs, v ≠ JObj kvs) ->
  decode_body resp locals = Raise TypeError.
Proof.
  intros Hj Hv. unfold decode_body. rewrite Hj. simpl.
  destruct v; try reflexivity. by destruct (Hv kvs).
Qed.

Lemma decode_body_no_data resp locals kvs s :
  json resp = Ok (JObj kvs) ->
  dict_get "success" kvs = Some s -> eq_True s = true ->
  dict_get "data" kvs = None ->
  decode_body resp locals = Raise (KeyError "data").
Proof.
  intros Hj Hs Ht Hd. unfold decode_body. rewrite Hj. simpl.
  rewrite Hs. simpl. by rewrite Ht, Hd.
Qed.

Lemma decode_body_no_error resp locals kvs s :
  json resp = Ok (JObj kvs) ->
  dict_get "success" kvs = Some s -> eq_True s = false ->
  dict_get "error" kvs = None ->
  decode_body resp locals = Raise (KeyError "error").
Proof.
  intros Hj Hs Ht He. unfold decode_body. rewrite Hj. simpl.
  rewrite Hs. simpl. by rewrite Ht, He.
Qed.

(** X7. A 200 answer whose body decodes but is not what the executor reads
    makes the call raise instead of returning: TypeError for a body that is
    not an object, KeyError for an object without the success key, without
    data when the flag equals True, or without error when it does not. *)
Theorem run_body_raises post self c h resp v :
  answers post (Ok resp) ->
  status_code resp = 200%Z ->
  json resp = Ok v ->
  ((forall kvs, v ≠ JObj kvs) -> (run post self c h).1 = Raise TypeError)
  ∧ (forall kvs, v = JObj kvs -> dict_get "success" kvs = None ->
       (run post self c h).1 = Raise (KeyError "success"))
  ∧ (forall kvs s, v = JObj kvs -> dict_get "success" kvs = Some s ->
       eq_True s = true -> dict_get "data" kvs = None ->
       (run post self c h).1 = Raise (KeyError "data"))
  ∧ (forall kvs s, v = JObj kvs -> dict_get "success" kvs = Some s ->
       eq_True s = false -> dict_get "error" kvs = None ->
       (run post self c h).1 = Raise (KeyError "error")).
Proof.
  intros Hpost Hs Hj.
  destruct (run_after_payload post self c h) as (url & p & h' & ->).
  cbn [fst].
  split; [|split; [|split]].
  - intros Hv. erewrite classify_200_raises; [done|apply Hpost|done| |done].
    by eapply decode_body_not_object.
  - intros kvs -> Hk. erewrite classify_200_raises; [done|apply Hpost|done| |done].
    by eapply decode_body_no_success.
  - intros kvs s -> Hk Ht Hd.
    erewrite classify_200_raises; [done|apply Hpost|done| |done].
    by eapply decode_body_no_data.
  - intros kvs s -> Hk Ht He.
    erewrite classify_200_raises; [done|apply Hpost|done| |done].
    by eapply decode_body_no_error.
Qed.

Lemma run_body_raises_witness :
  let post : transport :=
    fun _ _ _ _ =>
      Ok {| status_code := 200; json := Ok (JObj [("success", JBool true)]) |} in
  (run post (VyDevice_init "h" "k") (Show (Some [])) []).1 = Raise (KeyError "data").
Proof.
  intros post.
  assert (answers post
            (Ok {| status_code := 200; json := Ok (JObj [("success", JBool true)]) |}))
    as Hans by (intros ? ? ? ?; reflexivity).
  exact (proj1 (proj2 (proj2
           (run_body_raises post (VyDevice_init "h" "k") (Show (Some [])) [] _
              (JObj [("success", JBool true)]) Hans eq_refl eq_refl)))
           [("success", JBool true)] (JBool true) eq_refl eq_refl eq_refl eq_refl).
Defined.

(** ** What is sent, and where *)



Lemma delete_key_base_payload self d :
  delete "key" (base_payload self d) = {["data" := d]}.
Proof.
  unfold base_payload. rewrite delete_insert_eq.
  by apply delete_singleton_ne.
Qed.

Lemma api_request_empty_path_request post self command op file url name h r h' :
  _api_request post self command op (Some []) file url name h = (Ok r, h') ->
  request r
  = {["data" :=
        Json.dumps
          (VDict (dict_set_opt "name" name
                   (dict_set_opt "url" (Some (_get_url self command))
                     (dict_set_opt "file" file
                       [("op", VStr op); ("path", VList [])]))))]}
  ∧ h' = h.
Proof.
  intros Hr.
  rewrite (api_request_after_payload post self command op (Some []) file url name h _ h
             (get_payload_empty self op (Some []) file _ name h (or_intror eq_refl)))
    in Hr.
  destruct (post_and_classify _ _ _ _ _) as [locals|]; [|done].
  cbn [bind] in Hr. injection Hr as <- <-.
  split; [|done]. cbn [response_of request]. apply delete_key_base_payload.
Qed.

(** X9. config_file_save and config_file_load send the file inside the
    data object, after op and the empty path and before the endpoint
    address that the executor adds as url; the echoed request holds that
    data entry and nothing else. *)
Theorem config_file_request post self f h r h' :
  (config_file_save post self (Some f) h = (Ok r, h') ->
   request r
   = {["data" :=
         Json.dumps (VDict [("op", VStr "save"); ("path", VList []);
                            ("file", VStr f);
                            ("url", VStr (_get_url self "config-file"))])]})
  ∧ (config_file_load post self (Some f) h = (Ok r, h') ->
     request r
     = {["data" :=
           Json.dumps (VDict [("op", VStr "load"); ("path", VList []);
                              ("file", VStr f);
                              ("url", VStr (_get_url self "config-file"))])]}).
Proof.
  split; intros Hr.
  - destruct (api_request_empty_path_request post self "config-file" "save"
                (Some f) None None h r h' Hr) as [Hreq _].
    rewrite Hreq. reflexivity.
  - destruct (api_request_empty_path_request post self "config-file" "load"
                (Some f) None None h r h' Hr) as [Hreq _].
    rewrite Hreq. reflexivity.
Qed.

Lemma config_file_request_witness :
  let post : transport := fun _ _ _ _ => Raise (ConnectionError "refused") in
  request {| status := 0;
             request :=
               {["data" := Json.text ("{'op': 'save', 'path': [], 'file': '/config/x', "
                                      +:+ "'url': 'https://h:443/config-file'}")]};
             result_ := JObj [];
             error := JStr "connection error: refused" |}
  = {["data" :=
        Json.dumps (VDict [("op", VStr "save"); ("path", VList []);
                           ("file", VStr "/config/x");
                           ("url", VStr (_get_url (VyDevice_init "h" "k") "config-file"))])]}.
Proof.
  apply (proj1 (config_file_request (fun _ _ _ _ => Raise (ConnectionError "refused"))
                  (VyDevice_init "h" "k") "/config/x" [] _ [])).
  vm_compute. reflexivity.
Defined.

(** X10. image_delete sends the image name inside the data object, after
    the endpoint address that the executor adds as url. *)
Theorem image_delete_request post self n h r h' :
  image_delete post self (Some n) h = (Ok r, h') ->
  request r
  = {["data" :=
        Json.dumps (VDict [("op", VStr "delete"); ("path", VList []);
                           ("url", VStr (_get_url self "image"));
                           ("name", VStr n)])]}.
Proof.
  intros Hr.
  destruct (api_request_empty_path_request post self "image" "delete"
              None None (Some n) h r h' Hr) as [Hreq _].
  rewrite Hreq. reflexivity.
Qed.

Lemma image_delete_request_witness :
  request {| status := 0;
             request :=
               {["data" := Json.text ("{'op': 'delete', 'path': [], "
                                      +:+ "'url': 'https://h:443/image', 'name': 'old'}")]};
             result_ := JObj [];
             error := JStr "connection error: refused" |}
  = {["data" :=
        Json.dumps (VDict [("op", VStr "delete"); ("path", VList []);
                           ("url", VStr (_get_url (VyDevice_init "h" "k") "image"));
                           ("name", VStr "old")])]}.
Proof.
  apply (image_delete_request (fun _ _ _ _ => Raise (ConnectionError "refused"))
           (VyDevice_init "h" "k") "old" [] _ []).
  vm_compute. reflexivity.
Defined.


(** ** The responses a call returns *)

Lemma classify_inversion post self url p o s r e :
  post url (verify self) p (timeout self) = o ->
  post_and_classify post self url p (JObj [], JBool false) = Ok (s, r, e) ->
  returned_kind o s r e.
Proof.
  intros Hpost Hc. unfold post_and_classify in Hc. rewrite Hpost in Hc.
  destruct o as [resp|ex]; cbn [bind try_except] in Hc.
  - destruct (Z.eqb_spec (status_code resp) 200) as [Hs|Hs].
    + unfold decode_body in Hc.
      destruct (json resp) as [v|ex] eqn:Hj; cbn [bind try_except] in Hc.
      * destruct v; cbn [getitem bind try_except is_JSONDecodeError is_ConnectionError] in Hc;
          try discriminate Hc.
        destruct (dict_get "success" kvs) as [flag|] eqn:Hflag;
          cbn [bind try_except is_JSONDecodeError is_ConnectionError] in Hc;
          [|discriminate Hc].
        destruct (eq_True flag) eqn:Ht.
        -- destruct (dict_get "data" kvs) as [d|] eqn:Hd;
             cbn [bind try_except is_JSONDecodeError is_ConnectionError fst snd] in Hc;
             [|discriminate Hc].
           injection Hc as <- <- <-. rewrite Hs. by eapply kind_success.
        -- destruct (dict_get "error" kvs) as [err|] eqn:He;
             cbn [bind try_except is_JSONDecodeError is_ConnectionError fst snd] in Hc;
             [|discriminate Hc].
           injection Hc as <- <- <-. rewrite Hs. by eapply kind_failure.
      * destruct ex;
          cbn [bind try_except is_JSONDecodeError is_ConnectionError fst snd] in Hc;
          try discriminate Hc.
        -- injection Hc as <- <- <-. by eapply kind_decode_connection_error.
        -- injection Hc as <- <- <-. rewrite Hs. by eapply kind_decode_error.
    + cbn [bind fst snd] in Hc. injection Hc as <- <- <-. by eapply kind_http_error.
  - destruct ex; cbn [is_ConnectionError fst] in Hc; try discriminate Hc.
    injection Hc as <- <- <-. by eapply kind_connection_error.
Qed.

(** X11. The responses a call returns are of six kinds and no other: the
    three error strings the executor makes up (with status 0 for a
    connection error, the HTTP status for "http error", 200 for "json decode
    error"), the server's data with error False, and the server's error
    with an empty result. *)
Theorem run_returned_kinds post self c h o r h' :
  answers post o ->
  run post self c h = (Ok r, h') ->
  returned_kind o (status r) (result_ r) (error r).
Proof.
  intros Hpost Hr.
  destruct (run_after_payload post self c h) as (url & p & h1 & Hrun).
  rewrite Hrun in Hr.
  destruct (post_and_classify post self url p (JObj [], JBool false))
    as [[[s res] e]|] eqn:Hc; [|done].
  cbn [bind] in Hr. injection Hr as <- _.
  cbn [response_of status result_ error fst snd].
  eapply classify_inversion; [apply Hpost | exact Hc].
Qed.

(** X12. A returned response whose error is False comes from a 200 answer
    with an object body: either its success flag equals True and the result
    is its data field, or the flag does not and the body's own error field
    is False. No response the executor classifies as a transport, HTTP or
    decode failure has error False. *)
Theorem run_error_false post self c h o r h' :
  answers post o ->
  run post self c h = (Ok r, h') ->
  error r = JBool false ->
  ∃ resp kvs s,
    o = Ok resp ∧ status_code resp = 200%Z ∧ status r = 200%Z
    ∧ json resp = Ok (JObj kvs) ∧ dict_get "success" kvs = Some s
    ∧ ((eq_True s = true ∧ dict_get "data" kvs = Some (result_ r))
       ∨ (eq_True s = false ∧ dict_get "error" kvs = Some (JBool false)
          ∧ result_ r = JObj [])).
Proof.
  intros Hpost Hr He.
  destruct (run_after_payload post self c h) as (url & p & h1 & Hrun).
  rewrite Hrun in Hr.
  destruct (post_and_classify post self url p (JObj [], JBool false))
    as [[[s res] e]|] eqn:Hc; [|done].
  cbn [bind] in Hr. injection Hr as <- _.
  cbn [response_of status result_ error fst snd] in *. subst e.
  apply (classify_inversion _ _ _ _ o) in Hc; [|apply Hpost].
  inversion Hc; subst; eauto 12.
Qed.


Lemma run_returned_kinds_witness :
  returned_kind (Ok {| status_code := 503; json := Raise (JSONDecodeError "") |})
    503 (JObj []) (JStr "http error").
Proof.
  apply (run_returned_kinds
           (fun _ _ _ _ => Ok {| status_code := 503; json := Raise (JSONDecodeError "") |})
           (VyDevice_init "h" "k") (Show (Some [])) []
           (Ok {| status_code := 503; json := Raise (JSONDecodeError "") |})
           {| status := 503;
              request :=
                {["data" := Json.text
                              "{'op': 'show', 'path': [], 'url': 'https://h:443/show'}"]};
              result_ := JObj []; error := JStr "http error" |} []).
  - intros ? ? ? ?. reflexivity.
  - vm_compute. reflexivity.
Defined.

Lemma run_error_false_witness :
  let body := [("success", JInt 1); ("data", JObj [("x", JInt 1)])] in
  let resp := {| status_code := 200; json := Ok (JObj body) |} in
  ∃ resp' kvs s,
    Ok resp = Ok resp' ∧ status_code resp' = 200%Z ∧ 200%Z = 200%Z
    ∧ json resp' = Ok (JObj kvs) ∧ dict_get "success" kvs = Some s
    ∧ ((eq_True s = true ∧ dict_get "data" kvs = Some (JObj [("x", JInt 1)]))
       ∨ (eq_True s = false ∧ dict_get "error" kvs = Some (JBool false)
          ∧ JObj [("x", JInt 1)] = JObj [])).
Proof.
  intros body resp.
  apply (run_error_false (fun _ _ _ _ => Ok resp)
           (VyDevice_init "h" "k") (Show (Some [])) [] (Ok resp)
           {| status := 200;
              request :=
                {["data" := Json.text
                              "{'op': 'show', 'path': [], 'url': 'https://h:443/show'}"]};
              result_ := JObj [("x", JInt 1)]; error := JBool false |} []).
  - intros ? ? ? ?. reflexivity.
  - vm_compute. reflexivity.
  - reflexivity.
Defined.

(** ** The url field of the request *)

Lemma api_request_url post self command op path file url name h r h' :
  _api_request post self command op path file url name h = (Ok r, h') ->
  request r !! "url"
  = match path with
    | Some (_ :: _) => Some (_get_url self command)
    | _ => None
    end.
Proof.
  intros Hr.
  destruct (_get_payload self op path file (Some (_get_url self command)) name h)
    as [[p|e] h1] eqn:Hp.
  - rewrite (api_request_after_payload _ _ _ _ _ _ _ _ _ _ _ Hp) in Hr.
    destruct (post_and_classify _ _ _ _ _) as [locals|]; [|done].
    cbn [bind] in Hr. injection Hr as <- _.
    cbn [response_of request]. rewrite lookup_delete_ne by done.
    destruct path as [[|x [|y items]]|].
    + rewrite get_payload_empty in Hp by auto.
      by replace p with (base_payload self
           (Json.dumps (VDict (dict_set_opt "name" name
              (dict_set_opt "url" (Some (_get_url self command))
                (dict_set_opt "file" file
                   [("op", VStr op); ("path", path_value h (Some []))]))))))
        by congruence.
    + rewrite get_payload_single in Hp.
      replace p with (outer_payload self
           (Json.dumps (VDict [("op", VStr op); ("path", item_value h x)]))
           (Some (_get_url self command))) by congruence.
      apply outer_payload_lookup_url.
    + rewrite get_payload_general in Hp.
      apply (f_equal fst) in Hp. cbn [fst] in Hp.
      apply wrap_payload_Ok in Hp. subst p. apply outer_payload_lookup_url.
    + rewrite get_payload_empty in Hp by auto.
      by replace p with (base_payload self
           (Json.dumps (VDict (dict_set_opt "name" name
              (dict_set_opt "url" (Some (_get_url self command))
                (dict_set_opt "file" file
                   [("op", VStr op); ("path", path_value h None)]))))))
        by congruence.
  - by rewrite (api_request_builder_raises _ _ _ _ _ _ _ _ _ _ _ Hp) in Hr.
Qed.

(** X13. In the echoed request of every operation the url field is the
    address the request was posted to, and it is there exactly when the path
    is not empty; with an empty path (and for the image and config-file
    methods, which pass none) the request has no url field of its own. *)
Theorem run_request_url post self c h r h' :
  run post self c h = (Ok r, h') ->
  request r !! "url"
  = match call_path c with
    | Some (_ :: _) => Some (_get_url self (endpoint c))
    | _ => None
    end.
Proof.
  destruct c; cbn [run call_path endpoint];
    unfold retrieve_show_config, retrieve_return_values, retrieve_exists, reset,
      image_add, image_delete, show, generate, configure_set, configure_delete,
      config_file_save, config_file_load, reboot, poweroff;
    apply api_request_url.
Qed.

Lemma run_request_url_witness :
  request {| status := 0;
             request :=
               {["data" := Json.text "{'op': 'reboot', 'path': 'now'}";
                 "url" := "https://h:443/reboot"]};
             result_ := JObj [];
             error := JStr "connection error: refused" |} !! "url"
  = Some (_get_url (VyDevice_init "h" "k") "reboot").
Proof.
  apply (run_request_url (fun _ _ _ _ => Raise (ConnectionError "refused"))
           (VyDevice_init "h" "k") (Reboot path_now) [] _ []).
  vm_compute. reflexivity.
Defined.

(** ** The address *)

Lemma append_inj_l (s a b : string) : s +:+ a = s +:+ b -> a = b.
Proof.
  induction s as [|ch s IH]; simpl; [done|].
  intros H. injection H as H. by apply IH.
Qed.

(** X14. For one device, different commands have different addresses. *)
Theorem get_url_inj self c1 c2 :
  _get_url self c1 = _get_url self c2 -> c1 = c2.
Proof.
  unfold _get_url. intros H.
  do 6 apply append_inj_l in H. exact H.
Qed.

Lemma get_url_inj_witness :
  "show" = "show".
Proof.
  apply (get_url_inj (VyDevice_init "h" "k") "show" "show"). reflexivity.
Defined.

(** ** Calls that share a list object *)

Lemma scan_nested_seg op l d h xs :
  h !! l = Some xs ->
  scan op [Nested l; Seg d] h
  = ([{| cmd_op := op; cmd_path := l |}], list_append h l d ++ [[]]).
Proof.
  intros Hl.
  assert (l < length h) as Hlt by (by eapply lookup_lt_Some).
  unfold scan, new_list. cbn [fold_left].
  rewrite scan_step_nested_empty by (cbn [cmd_path]; apply deref_fresh).
  rewrite scan_step_seg. cbn [cmd_path st_heap st_data st_current].
  rewrite list_append_app_l by done.
  rewrite deref_app_l by by rewrite length_list_append.
  rewrite deref_list_append_eq by done.
  rewrite (deref_Some _ _ _ Hl). by destruct xs.
Qed.

Lemma get_payload_nested_seg self op l d url h xs :
  h !! l = Some xs ->
  _get_payload self op (Some [Nested l; Seg d]) None url None h
  = (Ok (outer_payload self (Json.dumps (VList [request_value op (xs ++ [d])])) url),
     list_append h l d ++ [[]]).
Proof.
  intros Hl.
  assert (l < length h) as Hlt by (by eapply lookup_lt_Some).
  rewrite get_payload_general, (scan_nested_seg op l d h xs Hl). cbn [fst snd].
  rewrite wrap_payload_list. unfold command_value, request_value.
  cbn [fmap list_fmap cmd_op cmd_path].
  rewrite deref_app_l by by rewrite length_list_append.
  rewrite deref_list_append_eq by done.
  by rewrite (deref_Some _ _ _ Hl).
Qed.

(** X15. The builder is not idempotent on a path that has a plain segment
    after a nested sequence: the segment is appended to the caller's list,
    so building the payload a second time for the same path object sends
    the segment twice. *)
Theorem get_payload_twice self op l d url h xs :
  h !! l = Some xs ->
  let first := _get_payload self op (Some [Nested l; Seg d]) None url None h in
  let second := _get_payload self op (Some [Nested l; Seg d]) None url None first.2 in
  first.1
  = Ok (outer_payload self (Json.dumps (VList [request_value op (xs ++ [d])])) url)
  ∧ second.1
    = Ok (outer_payload self (Json.dumps (VList [request_value op (xs ++ [d; d])])) url).
Proof.
  intros Hl.
  assert (l < length h) as Hlt by (by eapply lookup_lt_Some).
  cbn zeta. rewrite (get_payload_nested_seg self op l d url h xs Hl). cbn [fst snd].
  split; [done|].
  rewrite (get_payload_nested_seg self op l d url _ (xs ++ [d])).
  - cbn [fst]. by rewrite <- app_assoc.
  - rewrite lookup_app_l by by rewrite length_list_append.
    unfold list_append. by rewrite list_lookup_alter_eq, Hl.
Qed.

Lemma get_payload_twice_witness :
  let self := VyDevice_init "h" "k" in
  let first := _get_payload self "set" (Some [Nested 0; Seg "d"]) None None None [["b"]] in
  let second := _get_payload self "set" (Some [Nested 0; Seg "d"]) None None None first.2 in
  first.1
  = Ok (outer_payload self (Json.dumps (VList [request_value "set" (["b"] ++ ["d"])])) None)
  ∧ second.1
    = Ok (outer_payload self
            (Json.dumps (VList [request_value "set" (["b"] ++ ["d"; "d"])])) None).
Proof.
  apply (get_payload_twice (VyDevice_init "h" "k") "set" 0 "d" None [["b"]] ["b"]).
  reflexivity.
Defined.

(** X16. When the same list object occurs twice in a path, the batch shows
    it twice with the contents it has at the end of the scan: for
    [x, d, x] both requests carry the path of x extended by d, not the
    path x had when it was first met. *)
Theorem get_payload_aliased self op l d url h xs :
  h !! l = Some xs ->
  _get_payload self op (Some [Nested l; Seg d; Nested l]) None url None h
  = (Ok (outer_payload self
           (Json.dumps (VList [request_value op (xs ++ [d]);
                               request_value op (xs ++ [d])])) url),
     list_append h l d ++ [[]]).
Proof.
  intros Hl.
  assert (l < length h) as Hlt by (by eapply lookup_lt_Some).
  assert (deref (list_append h l d ++ [[]]) l = xs ++ [d]) as Hd.
  { rewrite deref_app_l by by rewrite length_list_append.
    rewrite deref_list_append_eq by done. by rewrite (deref_Some _ _ _ Hl). }
  rewrite get_payload_general.
  assert (scan op [Nested l; Seg d; Nested l] h
          = ([{| cmd_op := op; cmd_path := l |}; {| cmd_op := op; cmd_path := l |}],
             list_append h l d ++ [[]])) as ->.
  { unfold scan, new_list. cbn [fold_left].
    rewrite scan_step_nested_empty by (cbn [cmd_path]; apply deref_fresh).
    rewrite scan_step_seg. cbn [cmd_path].
    rewrite list_append_app_l by done.
    rewrite scan_step_nested_nonempty
      by (cbn [cmd_path]; rewrite Hd; by destruct xs).
    cbn [st_heap st_data st_current cmd_path app].
    rewrite Hd. by destruct xs. }
  cbn [fst snd]. rewrite wrap_payload_list.
  unfold command_value, request_value. cbn [fmap list_fmap cmd_op cmd_path].
  by rewrite Hd.
Qed.

Lemma get_payload_aliased_witness :
  _get_payload (VyDevice_init "h" "k") "set" (Some [Nested 0; Seg "d"; Nested 0])
    None None None [["b"]]
  = (Ok (outer_payload (VyDevice_init "h" "k")
           (Json.dumps (VList [request_value "set" (["b"] ++ ["d"]);
                               request_value "set" (["b"] ++ ["d"])])) None),
     list_append [["b"]] 0 "d" ++ [[]]).
Proof.
  apply (get_payload_aliased (VyDevice_init "h" "k") "set" 0 "d" None [["b"]] ["b"]).
  reflexivity.
Defined.
